(** * brickorm: the Rebrickable catalog loader

    A shallow embedding of [src/brickorm/models.py] and
    [src/brickorm/bootstrap.py]: the twelve SQLModel table classes with
    their field declarations, the row normalisation performed by
    [RebrickableModel.download_instances] (pandas NaN to [None], then
    pydantic validation, with [Element.convert_id] run before it), and the
    load loop of [bootstrap] over a small model of the session and of the
    SQLite file it writes.

    The libraries the code calls are read as follows.
    - requests: [requests.get] raises or returns the response that ends the
      redirect chain; [Response.ok] is false exactly for a status from 400
      to 599.
    - gzip and pandas: the body of a response is kept as what [gzip.open]
      and [pd.read_csv] make of it, a frame or a refusal; a frame is the
      list of its rows, each the cells [row.to_dict()] returns.
    - pydantic (version 2, which [model_validate] and [model_validator]
      belong to), in its default lax mode: a field without [Optional]
      refuses [None]; [str] takes only a [str]; an enum takes a member's
      value; [int] and [bool] also take the other scalars that denote one;
      every field is tried and the failing ones are reported together; keys
      of the input that are no field are ignored.
    - SQLModel and SQLAlchemy: [create_all] creates the tables that do not
      exist and touches no other; [session.add] queues an object;
      [session.commit] inserts the queued objects in order and commits, or
      raises and leaves the file as the last commit left it; leaving the
      [with] block closes the session.
    - SQLite and its driver: an integer must fit 64 bits to be bound,
      primary keys are unique and not null, a lone integer primary key left
      out is assigned by the engine, foreign keys are not checked (the code
      never turns the pragma on). *)

From Stdlib Require Import ZArith Ascii String Floats.SpecFloat.
From stdpp Require Import base tactics option list strings gmap pretty.

Local Open Scope string_scope.
Local Open Scope Z_scope.
Local Open Scope list_scope.

(** ** Python values *)

(** A cell as [row.to_dict()] hands it over: native Python scalars. A
    missing CSV cell is the float NaN, [PFloat S754_nan]. A [str] is kept
    with one character per code point, so [String.length] is [len]. *)
Inductive pyval :=
| PNone
| PBool (b : bool)
| PInt (z : Z)
| PFloat (f : spec_float)
| PStr (s : string).

#[global] Instance spec_float_eq_dec : EqDecision spec_float.
Proof. solve_decision. Defined.
#[global] Instance pyval_eq_dec : EqDecision pyval.
Proof. solve_decision. Defined.

(** [pd.isna] on a scalar. *)
Definition isna (v : pyval) : bool :=
  match v with
  | PNone => true
  | PFloat S754_nan => true
  | _ => false
  end.

(** ** The table classes *)

Inductive Entity :=
| PartCategory | Part | Color | Element | PartRelationship | Minifig
| Set_ | Theme | Inventory | InventoryPart | InventoryMinifig | InventorySet.

#[global] Instance Entity_eq_dec : EqDecision Entity.
Proof. solve_decision. Defined.

(** [PartRelationship.PartType], a [StrEnum]. *)
Inductive PartType := PRINT | SUB_PART | MOLD | ALTERNATE | PAIR | PATTERN.

#[global] Instance PartType_eq_dec : EqDecision PartType.
Proof. solve_decision. Defined.

Definition PartType_value (m : PartType) : string :=
  match m with
  | PRINT => "P"
  | SUB_PART => "B"
  | MOLD => "M"
  | ALTERNATE => "A"
  | PAIR => "R"
  | PATTERN => "T"
  end.

Definition PartType_members : list PartType :=
  [PRINT; SUB_PART; MOLD; ALTERNATE; PAIR; PATTERN].

(** Field annotations used by the classes. *)
Inductive annotation := TInt | TStr | TBool | TPartType.

(** One annotated attribute with its [Field(...)] arguments. [optional] is
    [Optional[...]] in the annotation; [default_none] is [default=None]. *)
Record FieldInfo := mkField {
  name : string;
  annot : annotation;
  optional : bool;
  default_none : bool;
  primary_key : bool;
  foreign_key : option string;
  max_length : option nat
}.

Definition field (n : string) (a : annotation) : FieldInfo :=
  mkField n a false false false None None.
Definition pk (f : FieldInfo) : FieldInfo :=
  mkField (name f) (annot f) (optional f) (default_none f) true
          (foreign_key f) (max_length f).
Definition dflt (f : FieldInfo) : FieldInfo :=
  mkField (name f) (annot f) (optional f) true (primary_key f)
          (foreign_key f) (max_length f).
Definition opt (f : FieldInfo) : FieldInfo :=
  mkField (name f) (annot f) true (default_none f) (primary_key f)
          (foreign_key f) (max_length f).
Definition fk (t : string) (f : FieldInfo) : FieldInfo :=
  mkField (name f) (annot f) (optional f) (default_none f) (primary_key f)
          (Some t) (max_length f).
Definition maxlen (n : nat) (f : FieldInfo) : FieldInfo :=
  mkField (name f) (annot f) (optional f) (default_none f) (primary_key f)
          (foreign_key f) (Some n).

(** The class bodies of models.py, in declaration order. Relationship
    attributes are not pydantic fields and carry no column. *)
Definition fields (cls : Entity) : list FieldInfo :=
  match cls with
  | PartCategory =>
      [ dflt (pk (field "id" TInt));
        maxlen 200 (field "name" TStr) ]
  | Part =>
      [ pk (maxlen 20 (field "part_num" TStr));
        maxlen 250 (field "name" TStr);
        fk "partcategory.id" (field "part_cat_id" TInt) ]
  | Color =>
      [ dflt (pk (field "id" TInt));
        maxlen 200 (field "name" TStr);
        maxlen 6 (field "rgb" TStr);
        field "is_trans" TBool ]
  | Element =>
      [ pk (maxlen 10 (field "element_id" TStr));
        fk "part.part_num" (maxlen 20 (field "part_num" TStr));
        fk "color.id" (field "color_id" TInt) ]
  | PartRelationship =>
      [ maxlen 1 (field "rel_type" TPartType);
        fk "part.part_num" (maxlen 20 (field "child_part_num" TStr));
        fk "part.part_num" (maxlen 20 (field "parent_part_num" TStr)) ]
  | Minifig =>
      [ pk (maxlen 20 (field "fig_num" TStr));
        maxlen 256 (field "name" TStr);
        field "num_parts" TInt ]
  | Set_ =>
      [ pk (maxlen 20 (field "set_num" TStr));
        maxlen 256 (field "name" TStr);
        field "year" TInt;
        fk "theme.id" (field "theme_id" TInt);
        field "num_parts" TInt ]
  | Theme =>
      [ dflt (pk (field "id" TInt));
        maxlen 256 (field "name" TStr);
        fk "theme.id" (opt (field "parent_id" TInt)) ]
  | Inventory =>
      [ dflt (pk (field "id" TInt));
        field "version" TInt;
        fk "set.set_num" (maxlen 20 (field "set_num" TStr)) ]
  | InventoryPart =>
      [ dflt (pk (field "id" TInt));
        fk "inventory.id" (field "inventory_id" TInt);
        fk "part.part_num" (maxlen 20 (field "part_num" TStr));
        fk "color.id" (field "color_id" TInt);
        field "quantity" TInt;
        field "is_spare" TBool ]
  | InventoryMinifig =>
      [ dflt (pk (field "id" TInt));
        fk "inventory.id" (field "inventory_id" TInt);
        fk "minifig.fig_num" (maxlen 20 (field "fig_num" TStr));
        field "quantity" TInt ]
  | InventorySet =>
      [ pk (fk "inventory.id" (field "inventory_id" TInt));
        pk (maxlen 20 (fk "set.set_num" (field "set_num" TStr)));
        field "quantity" TInt ]
  end.

(** [__table_args__]: the composite [PrimaryKeyConstraint] of
    PartRelationship. *)
Definition table_args (cls : Entity) : list string :=
  match cls with
  | PartRelationship => ["rel_type"; "child_part_num"; "parent_part_num"]
  | _ => []
  end.

(** The class attribute [URL]. *)
Definition URL (cls : Entity) : string :=
  "https://cdn.rebrickable.com/media/downloads/" +:+
  match cls with
  | PartCategory => "part_categories"
  | Part => "parts"
  | Color => "colors"
  | Element => "elements"
  | PartRelationship => "part_relationships"
  | Minifig => "minifigs"
  | Set_ => "sets"
  | Theme => "themes"
  | Inventory => "inventories"
  | InventoryPart => "inventory_parts"
  | InventoryMinifig => "inventory_minifigs"
  | InventorySet => "inventory_sets"
  end +:+ ".csv.gz".

(** SQLModel names a table after its class, lower-cased. *)
Definition tablename (cls : Entity) : string :=
  match cls with
  | PartCategory => "partcategory"
  | Part => "part"
  | Color => "color"
  | Element => "element"
  | PartRelationship => "partrelationship"
  | Minifig => "minifig"
  | Set_ => "set"
  | Theme => "theme"
  | Inventory => "inventory"
  | InventoryPart => "inventorypart"
  | InventoryMinifig => "inventoryminifig"
  | InventorySet => "inventoryset"
  end.

Definition ALL_MODELS : list Entity :=
  [ PartCategory; Theme; Part; Color; Set_; Element; Minifig; Inventory;
    InventoryPart; InventoryMinifig; InventorySet; PartRelationship ].

(** ** The foreign-key graph *)

(** The table part of a ["table.column"] reference. *)
Fixpoint fk_table (s : string) : string :=
  match s with
  | EmptyString => EmptyString
  | String c rest =>
      if decide (c = "."%char) then EmptyString else String c (fk_table rest)
  end.

Definition entity_of_table (t : string) : option Entity :=
  head (filter (λ cls, tablename cls = t) ALL_MODELS).

(** The classes a class's foreign keys point at, one per declared key. *)
Definition parents (cls : Entity) : list (option Entity) :=
  omap (λ f, (λ s, entity_of_table (fk_table s)) <$> foreign_key f) (fields cls).

(** Position of a class in a load order. *)
Fixpoint position (cls : Entity) (order : list Entity) : option nat :=
  match order with
  | [] => None
  | c :: rest => if decide (c = cls) then Some 0%nat else S <$> position cls rest
  end.

(** ** Exceptions and results *)

Inductive exn :=
| RuntimeError                                  (* a bare [raise] with no active exception *)
| RequestException                              (* raised inside [requests.get] *)
| DecodeError                                   (* [gzip.open] / [pd.read_csv] reject the body *)
| KeyError (k : string)
| ValidationError (cls : Entity) (loc : list string)  (* pydantic, with the failing fields *)
| IntegrityError                                (* a key constraint refused at flush *)
| OverflowError                                 (* an integer too large for SQLite, at binding *)
| DatabaseFull                                  (* no unused rowid found (an OperationalError) *)
| OperationalError.                             (* no such table *)

Inductive result (A : Type) :=
| Ok (a : A)
| Err (e : exn).
Arguments Ok {A} a.
Arguments Err {A} e.

#[global] Instance result_ret : MRet result := λ A a, Ok a.
#[global] Instance result_bind : MBind result := λ A B f m,
  match m with
  | Ok a => f a
  | Err e => Err e
  end.

(** ** Validated attributes and instances *)

Inductive attr :=
| ANone
| AInt (z : Z)
| AStr (s : string)
| ABool (b : bool)
| AEnum (m : PartType).

#[global] Instance attr_eq_dec : EqDecision attr.
Proof. solve_decision. Defined.

(** An object of a table class: its class and its attributes in field
    order. *)
Record Instance := mkInstance {
  model : Entity;
  attrs : list (string * attr)
}.

#[global] Instance Instance_eq_dec : EqDecision Instance.
Proof. solve_decision. Defined.

Fixpoint getattr (k : string) (l : list (string * attr)) : option attr :=
  match l with
  | [] => None
  | (k', x) :: rest => if decide (k' = k) then Some x else getattr k rest
  end.

(** What the interpreter, pydantic-core and SQLite do that this development
    leaves open: the shortest round-trip [repr] of a float that is not an
    integer below 2^53, the lax parsers from [str] to [int] and to [bool],
    whose accepted literals differ between releases, and the rowid SQLite
    draws at random, given the rowids in use, once the largest rowid is
    taken (none when its search gives up). *)
Record runtime := mkRuntime {
  float_repr : spec_float → string;
  str_as_int : string → option Z;
  str_as_bool : string → option bool;
  random_rowid : list Z → option Z
}.

Abbreviation dict := (gmap string pyval).

Section Validation.
Context (rt : runtime).

(** The magnitude [m * 2^e] of a finite float when it is an integer. *)
Definition float_magnitude (m : positive) (e : Z) : option Z :=
  if 0 <=? e then Some (Z.pos m * 2 ^ e)
  else if Z.pos m mod 2 ^ (- e) =? 0 then Some (Z.pos m / 2 ^ (- e))
  else None.

(** [repr] of a float: an integer below 2^53 prints in full with [.0]
    after it (300121.0 as 300121.0), zeros, infinities and NaN by name. *)
Definition float_str (f : spec_float) : string :=
  match f with
  | S754_zero s => if s then "-0.0" else "0.0"
  | S754_infinity s => if s then "-inf" else "inf"
  | S754_nan => "nan"
  | S754_finite s m e =>
      match float_magnitude m e with
      | Some a =>
          if a <? 2 ^ 53 then (if s then "-" else "") +:+ pretty a +:+ ".0"
          else float_repr rt f
      | None => float_repr rt f
      end
  end.

(** Python's [str(v)]. *)
Definition py_str (v : pyval) : string :=
  match v with
  | PNone => "None"
  | PBool true => "True"
  | PBool false => "False"
  | PInt z => pretty z
  | PFloat f => float_str f
  | PStr s => s
  end.

(** *** pydantic, lax mode *)

(** The value of a finite float with no fractional part, inside the
    64-bit range pydantic-core keeps. *)
Definition float_as_int (f : spec_float) : option Z :=
  match f with
  | S754_zero _ => Some 0
  | S754_finite s m e =>
      let mag :=
        if 0 <=? e then Some (Z.pos m * 2 ^ e)
        else if Z.pos m mod 2 ^ (- e) =? 0 then Some (Z.pos m / 2 ^ (- e))
        else None in
      z ← (λ a, if s then - a else a) <$> mag;
      if (- 2 ^ 63 <? z) && (z <? 2 ^ 63) then Some z else None
  | _ => None
  end.

Definition validate_int (v : pyval) : option Z :=
  match v with
  | PInt z => Some z
  | PBool b => Some (if b then 1 else 0)
  | PFloat f => float_as_int f
  | PStr s => str_as_int rt s
  | PNone => None
  end.

Definition validate_bool (v : pyval) : option bool :=
  match v with
  | PBool b => Some b
  | PInt z => if z =? 0 then Some false else if z =? 1 then Some true else None
  | PFloat f =>
      match float_as_int f with
      | Some 0 => Some false
      | Some 1 => Some true
      | _ => None
      end
  | PStr s => str_as_bool rt s
  | PNone => None
  end.

Definition validate_str (v : pyval) : option string :=
  match v with
  | PStr s => Some s
  | _ => None
  end.

(** An enum field takes the member whose value equals the input. *)
Definition validate_enum (v : pyval) : option PartType :=
  match v with
  | PStr s => head (filter (λ m, PartType_value m = s) PartType_members)
  | _ => None
  end.

Definition coerce (a : annotation) (v : pyval) : option attr :=
  match a with
  | TInt => AInt <$> validate_int v
  | TStr => AStr <$> validate_str v
  | TBool => ABool <$> validate_bool v
  | TPartType => AEnum <$> validate_enum v
  end.

(** [max_length] bounds [len] of the validated value. *)
Definition within_max_length (ml : option nat) (x : attr) : bool :=
  match ml, x with
  | Some n, AStr s => (String.length s <=? n)%nat
  | Some n, AEnum m => (String.length (PartType_value m) <=? n)%nat
  | _, _ => true
  end.

Definition validate_value (f : FieldInfo) (v : pyval) : option attr :=
  match v with
  | PNone => if optional f then Some ANone else None
  | _ =>
      x ← coerce (annot f) v;
      if within_max_length (max_length f) x then Some x else None
  end.

(** One field of the input dict: a key that is present is validated, an
    absent one takes the default when there is one and is an error
    ("Field required") otherwise. [None] is an error at this field. *)
Definition validate_field (f : FieldInfo) (d : dict) : option attr :=
  match d !! name f with
  | Some v => validate_value f v
  | None => if default_none f then Some ANone else None
  end.

(** All fields are tried; the failing ones are collected in field order. *)
Fixpoint validate_fields (fs : list FieldInfo) (d : dict)
  : list (string * attr) * list string :=
  match fs with
  | [] => ([], [])
  | f :: rest =>
      let '(vals, errs) := validate_fields rest d in
      match validate_field f d with
      | Some x => ((name f, x) :: vals, errs)
      | None => (vals, name f :: errs)
      end
  end.

(** [Element.convert_id], a [mode="before"] model validator. *)
Definition convert_id (values : dict) : result dict :=
  match values !! "element_id" with
  | Some v => Ok (<["element_id" := PStr (py_str v)]> values)
  | None => Err (KeyError "element_id")
  end.

Definition before_validators (cls : Entity) (values : dict) : result dict :=
  match cls with
  | Element => convert_id values
  | _ => Ok values
  end.

(** [cls.model_validate(d)]. *)
Definition model_validate (cls : Entity) (d : dict) : result Instance :=
  values ← before_validators cls d;
  let '(vals, errs) := validate_fields (fields cls) values in
  match errs with
  | [] => Ok (mkInstance cls vals)
  | _ :: _ => Err (ValidationError cls errs)
  end.

(** *** pandas rows *)

(** A row of the frame: column labels with the cell under each. *)
Definition Series := list (string * pyval).
Definition DataFrame := list Series.

(** [row.to_dict()]; a later duplicate label overwrites an earlier one. *)
Definition to_dict (row : Series) : dict :=
  foldl (λ d kv, <[kv.1 := kv.2]> d) ∅ row.

(** The dict comprehension of [download_instances]:
    [{k: (v if not pd.isna(v) else None) for k, v in row.to_dict().items()}]. *)
Definition nan_to_none (v : pyval) : pyval :=
  if negb (isna v) then v else PNone.

Definition row_dict (row : Series) : dict := nan_to_none <$> to_dict row.

(** The loop over [df.iterrows()], with [models] as the accumulator. The
    first row that fails to validate raises out of the loop. *)
Fixpoint iterrows (cls : Entity) (df : DataFrame) (models : list Instance)
  : result (list Instance) :=
  match df with
  | [] => Ok models
  | row :: rest =>
      m ← model_validate cls (row_dict row);
      iterrows cls rest (models ++ [m])
  end.

End Validation.

(** ** The fetch *)

(** The body of a response, kept as what [gzip.open] and [pd.read_csv]
    make of it: either they reject it, or they yield a frame. *)
Inductive payload :=
| Garbage
| CsvGz (df : DataFrame).

Record Response := mkResponse {
  status_code : Z;
  content : payload
}.

(** [Response.ok]: [raise_for_status] raises for 400 <= status < 600. *)
Definition ok (r : Response) : bool :=
  negb ((400 <=? status_code r) && (status_code r <? 600)).

(** What [requests.get(url, allow_redirects=True)] does for a URL: it
    raises, or returns the response that ends the redirect chain. *)
Inductive reply :=
| Raises
| Returns (r : Response).

Definition network := string → reply.

Section Loader.
Context (rt : runtime) (net : network).

(** [RebrickableModel.download_instances]. *)
Definition download_instances (cls : Entity) : result (list Instance) :=
  match net (URL cls) with
  | Raises => Err RequestException
  | Returns r =>
      if negb (ok r) then Err RuntimeError
      else
        match content r with
        | Garbage => Err DecodeError
        | CsvGz df => iterrows rt cls df []
        end
  end.

(** ** The store

    The SQLite file as the tables it holds, each with its rows in insertion
    order. SQLite checks primary keys; it does not check foreign keys unless
    asked to, and nothing here asks. *)
Abbreviation database := (gmap string (list Instance)).

Definition rows_of (d : database) (cls : Entity) : list Instance :=
  default [] (d !! tablename cls).

(** [SQLModel.metadata.create_all(engine)]: CREATE TABLE for every class
    whose table is not there yet; a table that exists is left as it is. *)
Definition create_tables (d : database) : database :=
  foldr (λ cls d,
           match d !! tablename cls with
           | Some _ => d
           | None => <[tablename cls := []]> d
           end) d ALL_MODELS.

Definition pk_columns (cls : Entity) : list string :=
  (name <$> filter (λ f, primary_key f = true) (fields cls)) ++ table_args cls.

Definition pk_of (i : Instance) : list (option attr) :=
  (λ c, getattr c (attrs i)) <$> pk_columns (model i).

Fixpoint setattr (k : string) (x : attr) (l : list (string * attr))
  : list (string * attr) :=
  match l with
  | [] => [(k, x)]
  | (k', y) :: rest =>
      if decide (k' = k) then (k, x) :: rest else (k', y) :: setattr k x rest
  end.

(** A lone integer primary key column is the rowid. *)
Definition autoincrement (cls : Entity) : option string :=
  match filter (λ f, primary_key f = true) (fields cls), table_args cls with
  | [f], [] => match annot f with TInt => Some (name f) | _ => None end
  | _, _ => None
  end.

Definition rowids (c : string) (rows : list Instance) : list Z :=
  omap (λ i, match getattr c (attrs i) with Some (AInt z) => Some z | _ => None end) rows.

(** The rowid SQLite gives a row that leaves it out: 1 in an empty table,
    else one more than the largest in use; once the largest rowid there is,
    2^63 - 1, is in use it draws positive rowids at random until one is
    unused, and gives up after some tries. *)
Definition next_rowid (c : string) (rows : list Instance) : option Z :=
  match rowids c rows with
  | [] => Some 1
  | z :: zs =>
      let largest := foldr Z.max z zs in
      if largest <? 2 ^ 63 - 1 then Some (1 + largest)
      else
        r ← random_rowid rt (z :: zs);
        if (0 <? r) && (r <? 2 ^ 63) && negb (bool_decide (r ∈ z :: zs))
        then Some r else None
  end.

Definition assign_rowid (rows : list Instance) (i : Instance) : option Instance :=
  match autoincrement (model i) with
  | Some c =>
      match getattr c (attrs i) with
      | Some ANone =>
          r ← next_rowid c rows;
          Some (mkInstance (model i) (setattr c (AInt r) (attrs i)))
      | _ => Some i
      end
  | None => Some i
  end.

(** What the driver can bind: an integer must fit SQLite's 64-bit INTEGER,
    or binding raises [OverflowError]. *)
Definition fits_int64 (x : attr) : bool :=
  match x with
  | AInt z => (- 2 ^ 63 <=? z) && (z <? 2 ^ 63)
  | _ => true
  end.

Definition not_null (x : option attr) : bool :=
  match x with
  | None | Some ANone => false
  | Some _ => true
  end.

(** One INSERT: the statement needs its table, then the values of the
    object are bound, then the row goes in, with its rowid drawn when left
    out; its key must be complete and not yet in the table. *)
Definition insert (d : database) (i : Instance) : result database :=
  match d !! tablename (model i) with
  | None => Err OperationalError
  | Some rows =>
      if negb (forallb fits_int64 (attrs i).*2) then Err OverflowError
      else
        match assign_rowid rows i with
        | None => Err DatabaseFull
        | Some i' =>
            if forallb not_null (pk_of i')
               && negb (bool_decide (pk_of i' ∈ pk_of <$> rows))
            then Ok (<[tablename (model i) := rows ++ [i']]> d)
            else Err IntegrityError
        end
  end.

(** The flush of a commit: the pending objects are inserted in the order
    they were added; the first refusal fails the whole transaction. *)
Fixpoint flush (d : database) (new : list Instance) : result database :=
  match new with
  | [] => Ok d
  | i :: rest => d' ← insert d i; flush d' rest
  end.

(** ** The loader *)

Inductive event :=
| EvCreateAll
| EvDownload (cls : Entity)
| EvAdd (i : Instance)
| EvCommit.

(** The committed file, the session's pending objects ([session.new]) and
    the calls made so far. *)
Record world := mkWorld {
  db : database;
  pending : list Instance;
  trace : list event
}.

Definition M (A : Type) : Type := world → result A * world.

#[local] Instance M_ret : MRet M := λ A a w, (Ok a, w).
#[local] Instance M_bind : MBind M := λ A B f m w,
  match m w with
  | (Ok a, w') => f a w'
  | (Err e, w') => (Err e, w')
  end.

Definition emit (e : event) (w : world) : world :=
  mkWorld (db w) (pending w) (trace w ++ [e]).

Definition create_all : M unit := λ w,
  (Ok (), emit EvCreateAll (mkWorld (create_tables (db w)) (pending w) (trace w))).

Definition call_download_instances (cls : Entity) : M (list Instance) := λ w,
  (download_instances cls, emit (EvDownload cls) w).

Definition session_add (i : Instance) : M unit := λ w,
  (Ok (), emit (EvAdd i) (mkWorld (db w) (pending w ++ [i]) (trace w))).

(** [session.commit()]: flush and commit, or raise with the transaction
    rolled back to the last commit. *)
Definition session_commit : M unit := λ w,
  match flush (db w) (pending w) with
  | Ok d => (Ok (), emit EvCommit (mkWorld d [] (trace w)))
  | Err e => (Err e, w)
  end.

(** [with Session(engine) as session: ...]: a fresh session, closed on the
    way out whether the body returned or raised. *)
Definition with_session {A} (body : M A) : M A := λ w,
  let '(r, w') := body (mkWorld (db w) [] (trace w)) in
  (r, mkWorld (db w') [] (trace w')).

Fixpoint for_each {A} (l : list A) (body : A → M unit) : M unit :=
  match l with
  | [] => mret ()
  | x :: rest => body x ;; for_each rest body
  end.

(** The body of the loop over [ALL_MODELS]. *)
Definition load_model (model : Entity) : M unit :=
  instances ← call_download_instances model;
  for_each instances session_add ;;
  session_commit.

(** [bootstrap(path)], on the content [file] of the database at [path]
    (no tables when the file is new). *)
Definition bootstrap (file : database) : result unit * world :=
  (create_all ;; with_session (for_each ALL_MODELS load_model))
    (mkWorld file [] []).

End Loader.

(** ** Vocabulary of the statements *)

(** [i'] is how the store keeps [i]: [i] itself, or [i] with its rowid
    filled in. *)
Definition stored_as (rt : runtime) (i i' : Instance) : Prop :=
  ∃ rows, assign_rowid rt rows i = Some i'.

(** An instance the store takes as it is: its integers fit 64 bits and its
    key is complete. *)
Definition storable (i : Instance) : bool :=
  forallb fits_int64 (attrs i).*2 && forallb not_null (pk_of i).

Section LoaderSpec.
Context (rt : runtime) (net : network).

(** The calls one class costs when its download and its commit succeed. *)
Definition entity_events (cls : Entity) (recs : list Instance) : list event :=
  EvDownload cls :: (EvAdd <$> recs) ++ [EvCommit].

Definition batches_events (bs : list (Entity * list Instance)) : list event :=
  concat ((λ b, entity_events b.1 b.2) <$> bs).

(** How the loop over the classes ended. *)
Inductive stop :=
| Completed
| DownloadRaised (cls : Entity) (e : exn)
| CommitRaised (cls : Entity) (recs : list Instance) (e : exn).

Definition stop_result (s : stop) : result unit :=
  match s with
  | Completed => Ok ()
  | DownloadRaised _ e | CommitRaised _ _ e => Err e
  end.

Definition stop_events (s : stop) : list event :=
  match s with
  | Completed => []
  | DownloadRaised cls _ => [EvDownload cls]
  | CommitRaised cls recs _ => EvDownload cls :: (EvAdd <$> recs)
  end.

Definition stop_pending (s : stop) : list Instance :=
  match s with
  | CommitRaised _ recs _ => recs
  | _ => []
  end.

(** [bs] are the batches committed before the loop ended as [s], on the
    file [d] they left. *)
Definition stopped (ms : list Entity) (bs : list (Entity * list Instance))
    (d : gmap string (list Instance)) (s : stop) : Prop :=
  match s with
  | Completed => ms = bs.*1
  | DownloadRaised cls e =>
      ∃ rest, ms = bs.*1 ++ cls :: rest ∧ download_instances rt net cls = Err e
  | CommitRaised cls recs e =>
      ∃ rest, ms = bs.*1 ++ cls :: rest
              ∧ download_instances rt net cls = Ok recs ∧ flush rt d recs = Err e
  end.

(** Each batch is what its class's download returned. *)
Definition fetched (bs : list (Entity * list Instance)) : Prop :=
  Forall (λ b, download_instances rt net b.1 = Ok b.2) bs.

End LoaderSpec.


(** Two fields the statements single out. *)
Definition rel_type_field : FieldInfo := maxlen 1 (field "rel_type" TPartType).
Definition element_id_field : FieldInfo := pk (maxlen 10 (field "element_id" TStr)).

(** ** Sample inputs *)

(** A runtime to evaluate with: it prints every float it is asked about
    as nan, reads no string as a number or a boolean and finds no rowid at
    random. The inputs below put no fractional float under [element_id], no
    string under an integer or boolean field and no rowid at the top of the
    range. *)
Definition example_runtime : runtime :=
  mkRuntime (λ _, "nan") (λ _, None) (λ _, None) (λ _, None).

(** A server that answers each class's URL with a status and a frame. *)
Definition entity_of_url (url : string) : option Entity :=
  head (filter (λ cls, URL cls = url) ALL_MODELS).

Definition serve (status : Entity → Z) (frame : Entity → DataFrame) : network :=
  λ url,
    match entity_of_url url with
    | Some cls => Returns (mkResponse (status cls) (CsvGz (frame cls)))
    | None => Raises
    end.

Definition catalog_frame (cls : Entity) : DataFrame :=
  match cls with
  | PartCategory => [ [("id", PInt 1); ("name", PStr "Baseplates")] ]
  | Theme =>
      [ [("id", PInt 1); ("name", PStr "Technic"); ("parent_id", PFloat S754_nan)] ]
  | Color =>
      [ [("id", PInt 1); ("name", PStr "Black"); ("rgb", PStr "05131D");
         ("is_trans", PBool false)];
        [("id", PInt 9999); ("name", PStr "Trans-Clear"); ("rgb", PStr "FCFCFC");
         ("is_trans", PBool true)] ]
  | _ => []
  end.

(** An element line with no element id: [,3001a,4]. *)
Definition gap_row : Series :=
  [("element_id", PFloat S754_nan); ("part_num", PStr "3001a"); ("color_id", PInt 4)].

Definition gap_frame (cls : Entity) : DataFrame :=
  match cls with
  | Element => [gap_row]
  | _ => catalog_frame cls
  end.

(** A colour file whose second line has no name. *)
Definition nameless_color_frame (cls : Entity) : DataFrame :=
  match cls with
  | Color =>
      [ [("id", PInt 1); ("name", PStr "Black"); ("rgb", PStr "05131D");
         ("is_trans", PBool false)];
        [("id", PInt 2); ("name", PFloat S754_nan); ("rgb", PStr "0055BF");
         ("is_trans", PBool false)] ]
  | _ => catalog_frame cls
  end.

Definition net_ok : network := serve (λ _, 200) catalog_frame.
Definition net_part_404 : network :=
  serve (λ cls, if decide (cls = Part) then 404 else 200) catalog_frame.
Definition net_300 : network := serve (λ _, 300) catalog_frame.
Definition net_element_gap : network := serve (λ _, 200) gap_frame.
Definition net_nameless_color : network := serve (λ _, 200) nameless_color_frame.

Definition element_row : Series :=
  [("element_id", PInt 300121); ("part_num", PStr "3001a"); ("color_id", PInt 4)].
Definition print_row : Series :=
  [("rel_type", PStr "P"); ("child_part_num", PStr "3001pr0001");
   ("parent_part_num", PStr "3001a")].
Definition unknown_rel_row : Series :=
  [("rel_type", PStr "X"); ("child_part_num", PStr "3001pr0001");
   ("parent_part_num", PStr "3001a")].

Definition baseplates : Instance :=
  mkInstance PartCategory [("id", AInt 1); ("name", AStr "Baseplates")].
Definition technic : Instance :=
  mkInstance Theme [("id", AInt 1); ("name", AStr "Technic"); ("parent_id", ANone)].

(** The file after the first and after the second commit of a run on a new
    file that is served [catalog_frame]. *)
Definition after_part_categories : gmap string (list Instance) :=
  <[tablename PartCategory := [baseplates]]> (create_tables ∅).
Definition after_themes : gmap string (list Instance) :=
  <[tablename Theme := [technic]]> after_part_categories.

Definition black : Instance :=
  mkInstance Color [("id", AInt 1); ("name", AStr "Black"); ("rgb", AStr "05131D");
                    ("is_trans", ABool false)].
Definition trans_clear : Instance :=
  mkInstance Color [("id", AInt 9999); ("name", AStr "Trans-Clear");
                    ("rgb", AStr "FCFCFC"); ("is_trans", ABool true)].
Definition element_300121 : Instance :=
  mkInstance Element [("element_id", AStr "300121"); ("part_num", AStr "3001a");
                      ("color_id", AInt 4)].
Definition element_None : Instance :=
  mkInstance Element [("element_id", AStr "None"); ("part_num", AStr "3001a");
                      ("color_id", AInt 4)].

(** ** Vocabulary and inputs of the further properties *)

(** The column part of a ["table.column"] reference. *)
Fixpoint fk_column (s : string) : string :=
  match s with
  | EmptyString => EmptyString
  | String c rest => if decide (c = "."%char) then rest else fk_column rest
  end.

(** What the attribute kept for a field may be: a value of the annotated
    type, text within [max_length], or [None] where the annotation is
    [Optional] or the field has [default=None]. *)
Definition conforms (f : FieldInfo) (x : attr) : Prop :=
  match x with
  | ANone => optional f = true ∨ default_none f = true
  | AInt _ => annot f = TInt
  | AStr s => annot f = TStr ∧ ∀ n, max_length f = Some n → (String.length s ≤ n)%nat
  | ABool _ => annot f = TBool
  | AEnum _ => annot f = TPartType
  end.

(** The exceptions a download can end in. *)
Definition download_error (cls : Entity) (e : exn) : Prop :=
  e = RequestException ∨ e = RuntimeError ∨ e = DecodeError
  ∨ (cls = Element ∧ e = KeyError "element_id")
  ∨ ∃ errs, e = ValidationError cls errs ∧ errs ≠ []
            ∧ ∀ k, k ∈ errs → k ∈ name <$> fields cls.

Definition part_row : Series :=
  [("part_num", PStr "3001a"); ("name", PStr "Brick 2 x 4"); ("part_cat_id", PInt 11)].
Definition part_row_with_material : Series :=
  part_row ++ [("part_material", PStr "Plastic")].
Definition part_row_without_name : Series :=
  [("part_num", PStr "3001a"); ("part_cat_id", PInt 11)].
Definition numeric_part_row : Series :=
  [("part_num", PInt 3001); ("name", PStr "Brick 2 x 4"); ("part_cat_id", PInt 11)].
Definition long_rgb_row : Series :=
  [("id", PInt 1); ("name", PStr "Black"); ("rgb", PStr "#05131D");
   ("is_trans", PBool false)].
Definition nameless_color_row : Series :=
  [("id", PInt 2); ("name", PFloat S754_nan); ("rgb", PStr "0055BF");
   ("is_trans", PBool false)].
Definition root_theme_row : Series :=
  [("id", PInt 1); ("name", PStr "Technic"); ("parent_id", PFloat S754_nan)].
Definition inventory_part_row : Series :=
  [("inventory_id", PInt 1); ("part_num", PStr "3001a"); ("color_id", PInt 4);
   ("quantity", PInt 2); ("is_spare", PBool false)].
Definition element_row_without_id : Series :=
  [("part_num", PStr "3001a"); ("color_id", PInt 4)].

Definition net_empty : network := serve (λ _, 200) (λ _, []).
Definition net_element_without_id : network :=
  serve (λ _, 200)
    (λ cls, match cls with Element => [element_row_without_id] | _ => [] end).

Definition black_row : Series :=
  [("id", PInt 1); ("name", PStr "Black"); ("rgb", PStr "05131D");
   ("is_trans", PBool false)].
Definition element_row_300122 : Series :=
  [("element_id", PInt 300122); ("part_num", PStr "3001a"); ("color_id", PInt 1)].
Definition element_300122 : Instance :=
  mkInstance Element [("element_id", AStr "300122"); ("part_num", AStr "3001a");
                      ("color_id", AInt 1)].

(** A colour file that lists colour 1 twice. *)
Definition net_twin_colors : network :=
  serve (λ _, 200)
    (λ cls, match cls with Color => [black_row; black_row] | _ => catalog_frame cls end).

(** A category file whose first line carries the id 2^63, one more than a
    64-bit signed integer holds, followed by the line of category 1. *)
Definition wide_category_row : Series :=
  [("id", PInt 9223372036854775808); ("name", PStr "Bricks")].
Definition wide_category : Instance :=
  mkInstance PartCategory [("id", AInt 9223372036854775808); ("name", AStr "Bricks")].
Definition net_wide_id : network :=
  serve (λ _, 200)
    (λ cls, match cls with
            | PartCategory => wide_category_row :: catalog_frame PartCategory
            | _ => catalog_frame cls
            end).

(** * Properties *)

(** ** The load order *)

Lemma foreign_keys_resolve cls : Forall is_Some (parents cls).
Proof. destruct cls; vm_compute; repeat constructor; eauto. Qed.

Lemma ALL_MODELS_complete cls : cls ∈ ALL_MODELS.
Proof. destruct cls; unfold ALL_MODELS; set_solver. Qed.

Lemma ALL_MODELS_NoDup : NoDup ALL_MODELS.
Proof. by apply (bool_decide_unpack _). Qed.

(** C1: [ALL_MODELS], the order [bootstrap] loads in, is a topological
    order of the declared foreign keys: every class a foreign key of [cls]
    points at, [cls] itself apart, stands strictly earlier than [cls]. *)
Theorem load_order_topological cls p :
  Some p ∈ parents cls → p ≠ cls →
  ∃ i j, position p ALL_MODELS = Some i ∧ position cls ALL_MODELS = Some j ∧ (i < j)%nat.
Proof.
  intros H Hne.
  destruct cls;
    match type of H with
    | _ ∈ ?l => let l' := eval vm_compute in l in change l with l' in H
    end;
    set_unfold in H; destruct_or?; simplify_eq; try done;
    (do 2 eexists; split_and!; [by vm_compute | by vm_compute | lia]).
Qed.

(** ** Validation of one row *)

Section ValidationFacts.
Context (rt : runtime).

Lemma nan_to_none_isna v : isna v = true → nan_to_none v = PNone.
Proof. unfold nan_to_none. by intros ->. Qed.

Lemma nan_to_none_str v s : nan_to_none v = PStr s ↔ v = PStr s.
Proof.
  unfold nan_to_none. split; [|by intros ->].
  destruct (isna v) eqn:E; simpl; [done|]. done.
Qed.

Lemma row_dict_lookup row k : row_dict row !! k = nan_to_none <$> to_dict row !! k.
Proof. unfold row_dict. apply lookup_fmap. Qed.

Lemma validate_fields_errs fs d f :
  f ∈ fs → validate_field rt f d = None → name f ∈ (validate_fields rt fs d).2.
Proof.
  induction fs as [|g fs IH]; intros Hin Hf; [by apply elem_of_nil in Hin|].
  simpl. destruct (validate_fields rt fs d) as [vals errs] eqn:E.
  apply elem_of_cons in Hin as [->|Hin].
  - rewrite Hf. simpl. by left.
  - specialize (IH Hin Hf). simpl in IH.
    destruct (validate_field rt g d); simpl; [done|by right].
Qed.

Lemma validate_fields_errs_inv fs d k :
  k ∈ (validate_fields rt fs d).2 → ∃ f, f ∈ fs ∧ name f = k ∧ validate_field rt f d = None.
Proof.
  induction fs as [|g fs IH]; simpl; [by intros ?%elem_of_nil|].
  destruct (validate_fields rt fs d) as [vals errs] eqn:E. simpl in IH.
  destruct (validate_field rt g d) eqn:Eg; simpl.
  - intros (f & ? & ? & ?)%IH. exists f. split_and!; [by right|done..].
  - intros [->|Hk]%elem_of_cons.
    + exists g. split_and!; [by left|done..].
    + destruct (IH Hk) as (f & ? & ? & ?). exists f. split_and!; [by right|done..].
Qed.

Lemma validate_fields_vals fs d k x :
  getattr k (validate_fields rt fs d).1 = Some x →
  ∃ f, f ∈ fs ∧ name f = k ∧ validate_field rt f d = Some x.
Proof.
  induction fs as [|g fs IH]; simpl; [done|].
  destruct (validate_fields rt fs d) as [vals errs] eqn:E. simpl in IH.
  destruct (validate_field rt g d) eqn:Eg; simpl.
  - case_decide as Hk.
    + intros [= <-]. exists g. split_and!; [by left|done..].
    + intros (f & ? & ? & ?)%IH. exists f. split_and!; [by right|done..].
  - intros (f & ? & ? & ?)%IH. exists f. split_and!; [by right|done..].
Qed.

Lemma model_validate_inv cls d i :
  model_validate rt cls d = Ok i →
  ∃ values, before_validators rt cls d = Ok values ∧
    (validate_fields rt (fields cls) values).2 = [] ∧
    i = mkInstance cls (validate_fields rt (fields cls) values).1.
Proof.
  unfold model_validate. destruct (before_validators rt cls d) as [values|] eqn:E; [|done].
  simpl. destruct (validate_fields _ _ _) as [vals [|]] eqn:Ev; [|done].
  intros [= <-]. exists values. by rewrite Ev.
Qed.

Lemma model_validate_unfold cls d values :
  before_validators rt cls d = Ok values →
  model_validate rt cls d
  = match validate_fields rt (fields cls) values with
    | (vals, []) => Ok (mkInstance cls vals)
    | (_, errs) => Err (ValidationError cls errs)
    end.
Proof.
  intros H. unfold model_validate. rewrite H. simpl.
  by destruct (validate_fields _ _ _) as [vals [|]].
Qed.

Lemma model_validate_model cls d i : model_validate rt cls d = Ok i → model i = cls.
Proof. intros (? & _ & _ & ->)%model_validate_inv. done. Qed.

Lemma model_validate_err cls d values f :
  before_validators rt cls d = Ok values →
  f ∈ fields cls → validate_field rt f values = None →
  ∃ errs, model_validate rt cls d = Err (ValidationError cls errs) ∧ name f ∈ errs.
Proof.
  intros Hb Hin Hf. unfold model_validate. rewrite Hb. simpl.
  pose proof (validate_fields_errs _ _ _ Hin Hf) as He.
  destruct (validate_fields _ _ _) as [vals [|k errs]]; simpl in *.
  - by apply elem_of_nil in He.
  - eauto.
Qed.

(** X1: a missing value under a field that is not [Optional] is refused, with
    the field named in the error, for every field that no before-validator
    rewrites. *)
Lemma nan_in_required_field_rejected cls f row v :
  f ∈ fields cls → optional f = false →
  (cls, name f) ≠ (Element, "element_id") →
  (cls = Element → is_Some (to_dict row !! "element_id")) →
  to_dict row !! name f = Some v → isna v = true →
  ∃ errs, model_validate rt cls (row_dict row) = Err (ValidationError cls errs)
          ∧ name f ∈ errs.
Proof.
  intros Hin Hopt Hne Hel Hv Hna.
  assert (Hd : row_dict row !! name f = Some PNone).
  { rewrite row_dict_lookup, Hv. simpl. by rewrite nan_to_none_isna. }
  assert (Hf : ∀ values, values !! name f = Some PNone → validate_field rt f values = None).
  { intros values Hl. unfold validate_field. rewrite Hl. simpl. by rewrite Hopt. }
  destruct (decide (cls = Element)) as [->|Hcls].
  - destruct (Hel eq_refl) as [v' Hv'].
    eapply (model_validate_err _ _ (<["element_id" := PStr (py_str rt (nan_to_none v'))]> (row_dict row))); [| done |].
    + simpl. unfold convert_id. by rewrite row_dict_lookup, Hv'.
    + apply Hf. rewrite lookup_insert_ne; [done|]. congruence.
  - eapply (model_validate_err _ _ (row_dict row)); [| done | by apply Hf].
    by destruct cls.
Qed.

End ValidationFacts.

Section NormalizerFacts.
Context (rt : runtime).

Lemma validate_enum_Some v m :
  validate_enum v = Some m ↔ v = PStr (PartType_value m).
Proof.
  split.
  - destruct v as [| | | |s]; simpl; try done.
    intros H. apply head_Some_elem_of, list_elem_of_filter in H as [-> _]. done.
  - intros ->. by destruct m.
Qed.

Lemma validate_value_rel_type v :
  validate_value rt rel_type_field v = AEnum <$> validate_enum v.
Proof.
  destruct v as [| | | |s]; try done.
  unfold validate_value, coerce, rel_type_field, maxlen, field, annot, max_length.
  destruct (validate_enum (PStr s)) as [m|]; [|done].
  by destruct m.
Qed.

Lemma validate_rel_type_Some (d : dict) x :
  validate_field rt rel_type_field d = Some x →
  ∃ m, d !! "rel_type" = Some (PStr (PartType_value m)) ∧ x = AEnum m.
Proof.
  unfold validate_field. simpl.
  destruct (d !! "rel_type") as [v|]; [|done].
  rewrite validate_value_rel_type.
  destruct (validate_enum v) as [m|] eqn:E; [|done].
  apply validate_enum_Some in E as ->. intros [= <-]. eauto.
Qed.

Lemma validate_rel_type_code (d : dict) m :
  d !! "rel_type" = Some (PStr (PartType_value m)) →
  validate_field rt rel_type_field d = Some (AEnum m).
Proof.
  intros H. unfold validate_field. simpl. rewrite H.
  rewrite validate_value_rel_type.
  by rewrite (proj2 (validate_enum_Some _ m) eq_refl).
Qed.

(** C7: a PartRelationship row whose [rel_type] is not one of the six codes
    (a missing column, a missing value or any other value included) fails
    validation with [rel_type] among the reported fields; a row whose
    [rel_type] is one of the codes is never reported at [rel_type], and the
    instance it yields holds the member of [PartType] with that value; and
    such a row is accepted, with that member, when its two part numbers are
    text of at most 20 characters. *)
Theorem rel_type_closed_enumeration :
  (∀ row,
      (∀ m, to_dict row !! "rel_type" ≠ Some (PStr (PartType_value m))) →
      ∃ errs, model_validate rt PartRelationship (row_dict row)
              = Err (ValidationError PartRelationship errs)
              ∧ "rel_type" ∈ errs)
  ∧ (∀ row m,
      to_dict row !! "rel_type" = Some (PStr (PartType_value m)) →
      match model_validate rt PartRelationship (row_dict row) with
      | Ok i => getattr "rel_type" (attrs i) = Some (AEnum m)
      | Err e => ∃ errs, e = ValidationError PartRelationship errs ∧ "rel_type" ∉ errs
      end)
  ∧ (∀ row m c p,
      to_dict row !! "rel_type" = Some (PStr (PartType_value m)) →
      to_dict row !! "child_part_num" = Some (PStr c) →
      to_dict row !! "parent_part_num" = Some (PStr p) →
      (String.length c ≤ 20)%nat → (String.length p ≤ 20)%nat →
      model_validate rt PartRelationship (row_dict row)
      = Ok (mkInstance PartRelationship
              [("rel_type", AEnum m); ("child_part_num", AStr c);
               ("parent_part_num", AStr p)])).
Proof.
  split_and!.
  - intros row Hno.
    apply (model_validate_err rt PartRelationship _ (row_dict row) rel_type_field);
      [done | by left |].
    destruct (validate_field rt rel_type_field (row_dict row)) as [x|] eqn:E; [|done].
    apply validate_rel_type_Some in E as (m & Hm & _).
    rewrite row_dict_lookup in Hm.
    destruct (to_dict row !! "rel_type") as [v|] eqn:Ev; [|done].
    simpl in Hm. injection Hm as Hm. apply nan_to_none_str in Hm as ->.
    by destruct (Hno m).
  - intros row m Hm.
    assert (Hf : validate_field rt rel_type_field (row_dict row) = Some (AEnum m)).
    { apply validate_rel_type_code. rewrite row_dict_lookup, Hm. done. }
    unfold model_validate. simpl. fold rel_type_field. rewrite Hf.
    repeat match goal with
      | |- context [validate_field rt ?f ?d] => destruct (validate_field rt f d)
      end; simpl.
    + done.
    + eexists. split; [done|]. apply (bool_decide_unpack _). by vm_compute.
    + eexists. split; [done|]. apply (bool_decide_unpack _). by vm_compute.
    + eexists. split; [done|]. apply (bool_decide_unpack _). by vm_compute.
  - intros row m c p Hm Hc Hp Hlc Hlp.
    assert (Hf : validate_field rt rel_type_field (row_dict row) = Some (AEnum m)).
    { apply validate_rel_type_code. rewrite row_dict_lookup, Hm. done. }
    unfold model_validate. simpl. fold rel_type_field. rewrite Hf.
    unfold validate_field. simpl. rewrite !row_dict_lookup, Hc, Hp. simpl.
    apply Nat.leb_le in Hlc, Hlp. by rewrite Hlc, Hlp.
Qed.

Lemma fields_names_NoDup cls : NoDup (name <$> fields cls).
Proof. destruct cls; apply (bool_decide_unpack _); by vm_compute. Qed.

Lemma validate_fields_getattr fs d f x :
  f ∈ fs → NoDup (name <$> fs) → validate_field rt f d = Some x →
  getattr (name f) (validate_fields rt fs d).1 = Some x.
Proof.
  induction fs as [|g fs IH]; intros Hin Hnd Hf; [by apply elem_of_nil in Hin|].
  simpl. destruct (validate_fields rt fs d) as [vals errs] eqn:E. simpl in IH.
  rewrite fmap_cons in Hnd. apply NoDup_cons in Hnd as [Hg Hnd].
  apply elem_of_cons in Hin as [->|Hin].
  - rewrite Hf. simpl. by rewrite decide_True.
  - assert (name g ≠ name f) as Hne.
    { intros Heq. apply Hg. rewrite Heq. by apply list_elem_of_fmap_2. }
    destruct (validate_field rt g d); simpl; [rewrite decide_False by done|]; by apply IH.
Qed.

Lemma validate_fields_all_valid fs d f :
  (validate_fields rt fs d).2 = [] → f ∈ fs → is_Some (validate_field rt f d).
Proof.
  intros Herrs Hin. destruct (validate_field rt f d) eqn:E; [by eexists|].
  pose proof (validate_fields_errs rt _ _ _ Hin E) as H.
  rewrite Herrs in H. by apply elem_of_nil in H.
Qed.



End NormalizerFacts.

(** ** The download *)

Section DownloadFacts.
Context (rt : runtime) (net : network).

Lemma iterrows_Ok cls df acc models :
  iterrows rt cls df acc = Ok models ↔
  ∃ ms, models = acc ++ ms
        ∧ Forall2 (λ row m, model_validate rt cls (row_dict row) = Ok m) df ms.
Proof.
  revert acc. induction df as [|row df IH]; intros acc; simpl.
  - split.
    + intros [= <-]. exists []. by rewrite app_nil_r.
    + intros (ms & -> & ->%Forall2_nil_inv_l). by rewrite app_nil_r.
  - destruct (model_validate rt cls (row_dict row)) as [m|e] eqn:E; simpl.
    + rewrite IH. split.
      * intros (ms & -> & Hms). exists (m :: ms). rewrite <- app_assoc. by split; [|constructor].
      * intros (ms & -> & Hms). apply Forall2_cons_inv_l in Hms as (m' & ms' & Hm & Hms & ->).
        exists ms'. rewrite E in Hm. injection Hm as <-. by rewrite <- app_assoc.
    + split; [done|]. intros (ms & _ & Hms).
      apply Forall2_cons_inv_l in Hms as (m' & ms' & Hm & _). congruence.
Qed.

Lemma iterrows_Err cls df acc row e :
  row ∈ df → model_validate rt cls (row_dict row) = Err e →
  ∃ e', iterrows rt cls df acc = Err e'.
Proof.
  revert acc. induction df as [|r df IH]; intros acc Hin He; [by apply elem_of_nil in Hin|].
  simpl. apply elem_of_cons in Hin as [<-|Hin].
  - rewrite He. simpl. eauto.
  - destruct (model_validate rt cls (row_dict r)); simpl; eauto.
Qed.

(** C10: on a response that is ok and decodes to the frame [df],
    [download_instances] returns [models] exactly when [models] holds the
    validated instance of each row of [df], one per row and in row order. *)
Theorem one_record_per_row cls r df models :
  net (URL cls) = Returns r → ok r = true → content r = CsvGz df →
  (download_instances rt net cls = Ok models ↔
   Forall2 (λ row m, model_validate rt cls (row_dict row) = Ok m) df models).
Proof.
  intros Hnet Hok Hc. unfold download_instances. rewrite Hnet, Hok, Hc. simpl.
  rewrite iterrows_Ok. split.
  - by intros (ms & -> & Hms).
  - intros Hms. by exists models.
Qed.

Lemma download_instances_model cls models i :
  download_instances rt net cls = Ok models → i ∈ models → model i = cls.
Proof.
  unfold download_instances.
  destruct (net (URL cls)) as [|r]; [done|].
  destruct (negb (ok r)); [done|]. destruct (content r) as [|df]; [done|].
  intros (ms & -> & Hms)%iterrows_Ok Hin. simpl in Hin.
  apply list_elem_of_lookup in Hin as [n Hn].
  destruct (Forall2_lookup_r _ _ _ _ _ Hms Hn) as (row & _ & Hrow).
  by eapply model_validate_model.
Qed.

(** C3, as amended: [Response.ok] is false exactly for a 4xx or 5xx status.
    A final response with such a status makes [download_instances] raise at
    the bare [raise], so it returns no instance; a final response with any
    other status (300 and 304 included) is decoded, and the result is that
    of the loop over its rows. *)
Theorem error_status_raises cls r :
  net (URL cls) = Returns r →
  (ok r = false ↔ 400 ≤ status_code r < 600)
  ∧ (400 ≤ status_code r < 600 → download_instances rt net cls = Err RuntimeError)
  ∧ (¬ (400 ≤ status_code r < 600) →
     download_instances rt net cls
     = match content r with
       | Garbage => Err DecodeError
       | CsvGz df => iterrows rt cls df []
       end).
Proof.
  intros Hnet.
  assert (ok r = false ↔ 400 ≤ status_code r < 600) as Hok.
  { unfold ok. rewrite negb_false_iff, andb_true_iff, Z.leb_le, Z.ltb_lt. done. }
  split; [done|]. unfold download_instances. rewrite Hnet. split.
  - intros H. apply Hok in H. by rewrite H.
  - intros H. destruct (ok r); [done|]. by destruct H; apply Hok.
Qed.

End DownloadFacts.

(** ** The store *)

Lemma tablename_inj x y : tablename x = tablename y → x = y.
Proof. intros H. destruct x, y; try done; by vm_compute in H. Qed.

Lemma create_tables_lookup (d : gmap string (list Instance)) cls :
  create_tables d !! tablename cls = Some (rows_of d cls).
Proof.
  unfold create_tables, rows_of.
  assert (∀ l, foldr (λ cls d, match d !! tablename cls with
                               | Some _ => d
                               | None => <[tablename cls := []]> d
                               end) d l !! tablename cls
               = if bool_decide (cls ∈ l) then Some (default [] (d !! tablename cls))
                 else d !! tablename cls) as H.
  { induction l as [|c l IH]; simpl; [done|].
    set (d' := foldr _ d l) in *.
    destruct (decide (c = cls)) as [->|Hne].
    - rewrite bool_decide_eq_true_2 by by left.
      destruct (d' !! tablename cls) as [rows|] eqn:E.
      + rewrite E. case_bool_decide; simplify_eq; [done|]. by rewrite <- IH.
      + rewrite lookup_insert_eq. case_bool_decide; simplify_eq. by rewrite <- IH.
    - assert (d' !! tablename cls =
              match d' !! tablename c with
              | Some _ => d' | None => <[tablename c:=[]]> d' end !! tablename cls) as <-.
      { destruct (d' !! tablename c); [done|].
        rewrite lookup_insert_ne; [done|]. by intros ?%tablename_inj. }
      rewrite IH, (bool_decide_ext (cls ∈ c :: l) (cls ∈ l)); [done|].
      rewrite elem_of_cons. split; [intros [?|?]; [congruence|done] | by right]. }
  rewrite H, bool_decide_eq_true_2; [done|]. apply ALL_MODELS_complete.
Qed.

Lemma rows_of_create_tables (d : gmap string (list Instance)) cls :
  rows_of (create_tables d) cls = rows_of d cls.
Proof. unfold rows_of at 1. by rewrite create_tables_lookup. Qed.

Lemma create_tables_id (d : gmap string (list Instance)) :
  (∀ cls, is_Some (d !! tablename cls)) → create_tables d = d.
Proof.
  intros H. unfold create_tables.
  induction ALL_MODELS as [|c l IH]; simpl; [done|].
  rewrite IH. by destruct (H c) as [rows ->].
Qed.

Section StoreFacts.
Context (rt : runtime).

Lemma insert_inv (d d' : gmap string (list Instance)) i :
  insert rt d i = Ok d' →
  ∃ rows i', d !! tablename (model i) = Some rows
             ∧ forallb fits_int64 (attrs i).*2 = true
             ∧ assign_rowid rt rows i = Some i'
             ∧ d' = <[tablename (model i) := rows ++ [i']]> d.
Proof.
  unfold insert. destruct (d !! tablename (model i)) as [rows|]; [|done].
  destruct (forallb fits_int64 (attrs i).*2) eqn:Ef; [|done]. simpl.
  destruct (assign_rowid rt rows i) as [i'|] eqn:Ea; [|done].
  destruct (_ && _); [|done]. intros [= <-]. by exists rows, i'.
Qed.

Lemma insert_rows_of (d d' : gmap string (list Instance)) i cls :
  insert rt d i = Ok d' →
  ∃ i', stored_as rt i i' ∧
    rows_of d' cls = rows_of d cls ++ (if decide (model i = cls) then [i'] else []).
Proof.
  intros (rows & i' & Hrows & _ & Hi' & ->)%insert_inv.
  exists i'. split; [by exists rows|].
  unfold rows_of. case_decide as Hc.
  - subst cls. by rewrite lookup_insert_eq, Hrows.
  - rewrite lookup_insert_ne, app_nil_r; [done|]. by intros ?%tablename_inj.
Qed.

Lemma insert_tables (d d' : gmap string (list Instance)) i cls :
  insert rt d i = Ok d' → is_Some (d !! tablename cls) → is_Some (d' !! tablename cls).
Proof.
  intros (rows & i' & Hrows & _ & _ & ->)%insert_inv H.
  destruct (decide (tablename (model i) = tablename cls)) as [->|Hne].
  - rewrite lookup_insert_eq. eauto.
  - by rewrite lookup_insert_ne.
Qed.

Lemma insert_fits (d d' : gmap string (list Instance)) i :
  insert rt d i = Ok d' → forallb fits_int64 (attrs i).*2 = true.
Proof. by intros (rows & i' & _ & ? & _)%insert_inv. Qed.

Lemma autoincrement_pk cls c : autoincrement cls = Some c → pk_columns cls = [c].
Proof. destruct cls; vm_compute; congruence. Qed.

Lemma assign_rowid_explicit rows i :
  forallb not_null (pk_of i) = true → assign_rowid rt rows i = Some i.
Proof.
  intros H. unfold assign_rowid.
  destruct (autoincrement (model i)) as [c|] eqn:Ea; [|done].
  destruct (getattr c (attrs i)) as [[]|] eqn:Eg; try done.
  unfold pk_of in H. rewrite (autoincrement_pk _ _ Ea) in H. simpl in H.
  by rewrite Eg in H.
Qed.

(** On a file with its tables an insert fails at binding, for want of a
    rowid, or on the key; an instance that is [storable] can only fail on
    the key. *)
Lemma insert_Err (d : gmap string (list Instance)) i e :
  insert rt d i = Err e → is_Some (d !! tablename (model i)) →
  (e = IntegrityError ∨ e = OverflowError ∨ e = DatabaseFull)
  ∧ (storable i = true → e = IntegrityError).
Proof.
  unfold insert, storable. intros H [rows Hrows]. rewrite Hrows in H.
  destruct (forallb fits_int64 (attrs i).*2) eqn:Ef; simpl in *.
  - destruct (assign_rowid rt rows i) as [i'|] eqn:Ea.
    + destruct (_ && _); simplify_eq. auto.
    + simplify_eq. split; [auto|]. intros Hnn.
      rewrite assign_rowid_explicit in Ea by done. done.
  - simplify_eq. split; [auto|done].
Qed.

Lemma flush_app (d : gmap string (list Instance)) l1 l2 :
  flush rt d (l1 ++ l2) = d' ← flush rt d l1; flush rt d' l2.
Proof.
  revert d. induction l1 as [|i l1 IH]; intros d; simpl; [done|].
  destruct (insert rt d i); simpl; [apply IH|done].
Qed.

Lemma flush_rows_of (d d' : gmap string (list Instance)) recs cls :
  flush rt d recs = Ok d' →
  ∃ recs', rows_of d' cls = rows_of d cls ++ recs'
           ∧ Forall2 (stored_as rt) (filter (λ i, model i = cls) recs) recs'.
Proof.
  revert d. induction recs as [|i recs IH]; intros d; simpl.
  - intros [= <-]. exists []. by rewrite app_nil_r.
  - destruct (insert rt d i) as [d1|] eqn:E; [|done]. simpl. intros Hf.
    destruct (insert_rows_of _ _ _ cls E) as (i' & Hi' & Hr).
    destruct (IH _ Hf) as (recs' & Hr' & Hst).
    rewrite filter_cons. case_decide.
    + exists (i' :: recs'). rewrite Hr', Hr, <- app_assoc. split; [done|by constructor].
    + exists recs'. by rewrite Hr', Hr, app_nil_r.
Qed.

Lemma flush_tables (d d' : gmap string (list Instance)) recs :
  flush rt d recs = Ok d' →
  (∀ cls, is_Some (d !! tablename cls)) → ∀ cls, is_Some (d' !! tablename cls).
Proof.
  revert d. induction recs as [|i recs IH]; intros d; simpl; [by intros [= <-]|].
  destruct (insert rt d i) as [d1|] eqn:E; [|done]. simpl. intros Hf Hd.
  apply (IH _ Hf). intros cls. by eapply insert_tables.
Qed.

(** A flush on a file with its tables fails with one of the three store
    exceptions, and with [IntegrityError] when the whole batch is
    [storable]. *)
Lemma flush_Err (d : gmap string (list Instance)) recs e :
  flush rt d recs = Err e → (∀ cls, is_Some (d !! tablename cls)) →
  (e = IntegrityError ∨ e = OverflowError ∨ e = DatabaseFull)
  ∧ (Forall (λ i, storable i = true) recs → e = IntegrityError).
Proof.
  revert d. induction recs as [|i recs IH]; intros d; simpl; [done|].
  destruct (insert rt d i) as [d1|e1] eqn:E; simpl.
  - intros Hf Hd. destruct (IH _ Hf) as [H1 H2].
    { intros cls. by eapply insert_tables. }
    split; [done|]. intros [_ ?]%Forall_cons. auto.
  - intros [= <-] Hd. destruct (insert_Err _ _ _ E (Hd _)) as [H1 H2].
    split; [done|]. intros [? _]%Forall_cons. auto.
Qed.

(** Why a flush fails: the range error names a row with an integer outside
    64 bits, a full table a row that left its key to the database. *)
Lemma insert_Err_why (d : gmap string (list Instance)) i e :
  insert rt d i = Err e → is_Some (d !! tablename (model i)) →
  (e = IntegrityError ∨ e = OverflowError ∨ e = DatabaseFull)
  ∧ (e = OverflowError → forallb fits_int64 (attrs i).*2 = false)
  ∧ (e = DatabaseFull → forallb not_null (pk_of i) = false).
Proof.
  unfold insert. intros H [rows Hrows]. rewrite Hrows in H.
  destruct (forallb fits_int64 (attrs i).*2) eqn:Ef; simpl in *.
  - destruct (assign_rowid rt rows i) as [i'|] eqn:Ea.
    + destruct (_ && _); [done|]. injection H as <-. split_and!; [by left|done..].
    + injection H as <-. split_and!; [by right; right|done|]. intros _.
      destruct (forallb not_null (pk_of i)) eqn:Hnn; [|done].
      by rewrite assign_rowid_explicit in Ea.
  - injection H as <-. split_and!; [by right; left|done..].
Qed.

Lemma flush_Err_why (d : gmap string (list Instance)) recs e :
  flush rt d recs = Err e → (∀ cls, is_Some (d !! tablename cls)) →
  (e = IntegrityError ∨ e = OverflowError ∨ e = DatabaseFull)
  ∧ (e = OverflowError
     → Exists (λ i, forallb fits_int64 (attrs i).*2 = false) recs)
  ∧ (e = DatabaseFull → Exists (λ i, forallb not_null (pk_of i) = false) recs).
Proof.
  revert d. induction recs as [|i recs IH]; intros d; simpl; [done|].
  destruct (insert rt d i) as [d1|e1] eqn:E; simpl.
  - intros Hf Hd. destruct (IH d1 Hf) as (? & ? & ?).
    { intros cls. by eapply insert_tables. }
    split_and!; [done|intros; apply Exists_cons_tl; auto..].
  - intros [= ->] Hd. destruct (insert_Err_why _ _ _ E (Hd _)) as (? & ? & ?).
    split_and!; [done|intros; apply Exists_cons_hd; auto..].
Qed.

Lemma flush_fits (d d' : gmap string (list Instance)) recs :
  flush rt d recs = Ok d' →
  Forall (λ i, forallb fits_int64 (attrs i).*2 = true) recs.
Proof.
  revert d. induction recs as [|i recs IH]; intros d; simpl; [done|].
  destruct (insert rt d i) as [d1|] eqn:E; [|done]. simpl. intros Hf.
  constructor; [by eapply insert_fits|by eapply IH].
Qed.

(** A batch holding a complete key that the table already has cannot be
    flushed. *)
Lemma flush_collision (d : gmap string (list Instance)) recs i row :
  i ∈ recs → row ∈ rows_of d (model i) → pk_of row = pk_of i →
  forallb not_null (pk_of i) = true →
  ∃ e, flush rt d recs = Err e.
Proof.
  revert d. induction recs as [|j recs IH]; intros d Hin Hrow Hpk Hnn;
    [by apply elem_of_nil in Hin|].
  simpl. destruct (insert rt d j) as [d1|e1] eqn:E; simpl; [|eauto].
  apply elem_of_cons in Hin as [->|Hin].
  - exfalso. unfold insert in E.
    destruct (d !! tablename (model j)) as [rows|] eqn:Er; [|done].
    destruct (forallb fits_int64 (attrs j).*2); [|done]. simpl in E.
    rewrite assign_rowid_explicit in E by done.
    unfold rows_of in Hrow. rewrite Er in Hrow. simpl in Hrow.
    rewrite Hnn in E. simpl in E.
    rewrite bool_decide_eq_true_2 in E; [done|].
    rewrite <- Hpk. by apply list_elem_of_fmap_2.
  - apply IH; try done.
    destruct (insert_rows_of _ _ _ (model i) E) as (j' & _ & ->).
    apply elem_of_app. by left.
Qed.

End StoreFacts.

(** ** The run *)

Section LoaderFacts.
Context (rt : runtime) (net : network).

Lemma for_each_session_add recs w :
  for_each recs session_add w
  = (Ok (), mkWorld (db w) (pending w ++ recs) (trace w ++ (EvAdd <$> recs))).
Proof.
  revert w. induction recs as [|i recs IH]; intros [d p t]; simpl.
  - by rewrite !app_nil_r.
  - unfold mbind, M_bind. simpl. rewrite IH. simpl.
    by rewrite <- !app_assoc.
Qed.

Lemma load_model_unfold cls w :
  pending w = [] →
  load_model rt net cls w =
  match download_instances rt net cls with
  | Err e => (Err e, mkWorld (db w) [] (trace w ++ [EvDownload cls]))
  | Ok recs =>
      match flush rt (db w) recs with
      | Ok d => (Ok (), mkWorld d [] (trace w ++ entity_events cls recs))
      | Err e => (Err e, mkWorld (db w) recs (trace w ++ EvDownload cls :: (EvAdd <$> recs)))
      end
  end.
Proof.
  destruct w as [d p t]. simpl. intros ->.
  unfold load_model, mbind, M_bind, call_download_instances. simpl.
  destruct (download_instances rt net cls) as [recs|e]; [|done].
  rewrite for_each_session_add. simpl. unfold session_commit. simpl.
  destruct (flush rt d recs); unfold emit, entity_events; simpl.
  - by rewrite <- !app_assoc.
  - by rewrite <- !app_assoc.
Qed.

Lemma load_loop ms w :
  pending w = [] →
  ∃ bs d' s,
    fetched rt net bs ∧ flush rt (db w) (concat bs.*2) = Ok d' ∧
    stopped rt net ms bs d' s ∧
    for_each ms (load_model rt net) w
    = (stop_result s,
       mkWorld d' (stop_pending s) (trace w ++ batches_events bs ++ stop_events s)).
Proof.
  revert w. induction ms as [|cls ms IH]; intros w Hp.
  - exists [], (db w), Completed. split_and!; try done. by constructor.
    destruct w; simpl in *. subst. by rewrite app_nil_r.
  - simpl. unfold mbind, M_bind. rewrite load_model_unfold by done.
    destruct (download_instances rt net cls) as [recs|e] eqn:Ed.
    + destruct (flush rt (db w) recs) as [d1|e] eqn:Ef.
      * edestruct (IH (mkWorld d1 [] (trace w ++ entity_events cls recs)))
          as (bs & d' & s & Hbs & Hfl & Hs & ->); [done|].
        exists ((cls, recs) :: bs), d', s. split_and!.
        -- by constructor.
        -- simpl. rewrite flush_app, Ef. done.
        -- destruct s; simpl in *.
           ++ by rewrite Hs.
           ++ destruct Hs as (rest & -> & ?). by exists rest.
           ++ destruct Hs as (rest & -> & ?). by exists rest.
        -- unfold batches_events. rewrite fmap_cons. simpl concat.
           cbn [trace fst snd]. unfold entity_events.
           rewrite <- !app_assoc. simpl. by rewrite <- !app_assoc.
      * exists [], (db w), (CommitRaised cls recs e). split_and!; try done.
        -- by constructor.
        -- by exists ms.
    + exists [], (db w), (DownloadRaised cls e). split_and!; try done.
      * by constructor.
      * by exists ms.
Qed.

Lemma bootstrap_unfold file :
  ∃ bs d' s,
    fetched rt net bs ∧ flush rt (create_tables file) (concat bs.*2) = Ok d' ∧
    stopped rt net ALL_MODELS bs d' s ∧
    bootstrap rt net file
    = (stop_result s,
       mkWorld d' [] (EvCreateAll :: batches_events bs ++ stop_events s)).
Proof.
  destruct (load_loop ALL_MODELS (mkWorld (create_tables file) [] [EvCreateAll]))
    as (bs & d' & s & Hbs & Hfl & Hs & Hrun); [done|].
  exists bs, d', s. split_and!; try done.
  unfold bootstrap, mbind, M_bind, create_all, with_session, emit.
  cbn [db pending trace app]. by rewrite Hrun.
Qed.

End LoaderFacts.

Section RunFacts.
Context (rt : runtime) (net : network).

Lemma filter_model_same (l : list Instance) c :
  (∀ i, i ∈ l → model i = c) → filter (λ i, model i = c) l = l.
Proof.
  induction l as [|i l IH]; intros H; [done|].
  rewrite filter_cons, decide_True by (apply H; by left).
  f_equal. apply IH. intros j Hj. apply H. by right.
Qed.

Lemma filter_model_other (l : list Instance) c cls :
  (∀ i, i ∈ l → model i = c) → c ≠ cls → filter (λ i, model i = cls) l = [].
Proof.
  induction l as [|i l IH]; intros H Hne; [done|].
  rewrite filter_cons, decide_False.
  - apply IH; [|done]. intros j Hj. apply H. by right.
  - rewrite (H i) by by left. done.
Qed.

Lemma fetched_model bs b i :
  fetched rt net bs → b ∈ bs → i ∈ b.2 → model i = b.1.
Proof.
  intros Hbs Hb Hi. unfold fetched in Hbs. rewrite Forall_forall in Hbs.
  eapply download_instances_model; [by apply Hbs|done].
Qed.

Lemma batches_filter_absent bs cls :
  fetched rt net bs → cls ∉ bs.*1 →
  filter (λ i, model i = cls) (concat bs.*2) = [].
Proof.
  induction bs as [|b bs IH]; intros Hbs Hcls; [done|].
  rewrite !fmap_cons in *. simpl. rewrite filter_app.
  apply not_elem_of_cons in Hcls as [Hne Hcls].
  rewrite (filter_model_other _ b.1), IH; try done.
  - by apply Forall_cons in Hbs as [_ ?].
  - intros i Hi. apply (fetched_model (b :: bs) b i Hbs); [by left|done].
Qed.

Lemma batches_filter_present bs b :
  fetched rt net bs → NoDup bs.*1 → b ∈ bs →
  filter (λ i, model i = b.1) (concat bs.*2) = b.2.
Proof.
  induction bs as [|b0 bs IH]; intros Hbs Hnd Hb; [by apply elem_of_nil in Hb|].
  rewrite !fmap_cons in *. simpl. rewrite filter_app.
  apply NoDup_cons in Hnd as [Hb0 Hnd].
  pose proof Hbs as [_ Hbs']%Forall_cons.
  assert (∀ i, i ∈ b0.2 → model i = b0.1) as Hm.
  { intros i Hi. apply (fetched_model (b0 :: bs) b0 i Hbs); [by left|done]. }
  apply elem_of_cons in Hb as [->|Hb].
  - rewrite filter_model_same, batches_filter_absent, app_nil_r; done.
  - rewrite (filter_model_other _ b0.1), IH; try done.
    intros Heq. apply Hb0. rewrite Heq. by apply list_elem_of_fmap_2.
Qed.

Lemma stopped_prefix bs d s :
  stopped rt net ALL_MODELS bs d s → ∃ rest, ALL_MODELS = bs.*1 ++ rest.
Proof.
  destruct s; simpl.
  - intros ->. exists []. by rewrite app_nil_r.
  - intros (rest & -> & _). eauto.
  - intros (rest & -> & _). eauto.
Qed.

Lemma committed_rows file bs d b :
  fetched rt net bs → flush rt (create_tables file) (concat bs.*2) = Ok d →
  NoDup bs.*1 → b ∈ bs →
  ∃ recs', rows_of d b.1 = rows_of file b.1 ++ recs' ∧ Forall2 (stored_as rt) b.2 recs'.
Proof.
  intros Hbs Hfl Hnd Hb.
  destruct (flush_rows_of rt _ _ _ b.1 Hfl) as (recs' & Hr & Hst).
  rewrite batches_filter_present, rows_of_create_tables in *; eauto.
Qed.

Lemma uncommitted_rows file bs d cls :
  fetched rt net bs → flush rt (create_tables file) (concat bs.*2) = Ok d →
  cls ∉ bs.*1 → rows_of d cls = rows_of file cls.
Proof.
  intros Hbs Hfl Hcls.
  destruct (flush_rows_of rt _ _ _ cls Hfl) as (recs' & Hr & Hst).
  rewrite batches_filter_absent in Hst by done.
  apply Forall2_nil_inv_l in Hst as ->.
  by rewrite Hr, app_nil_r, rows_of_create_tables.
Qed.

Lemma elem_of_batches_events bs i :
  EvAdd i ∈ batches_events bs → ∃ b, b ∈ bs ∧ i ∈ b.2.
Proof.
  unfold batches_events. induction bs as [|b bs IH]; simpl; [by intros ?%elem_of_nil|].
  intros [?|Hi]%elem_of_cons; [done|].
  rewrite <- app_assoc in Hi. apply elem_of_app in Hi as [Hi|Hi].
  - apply list_elem_of_fmap in Hi as (j & [= ->] & ?). exists b. split; [by left|done].
  - apply elem_of_cons in Hi as [?|Hi]; [done|].
    destruct (IH Hi) as (b' & ? & ?). exists b'. split; [by right|done].
Qed.

(** Nothing of a class whose download raises reaches the session or the
    file. *)
Lemma failed_download_untouched file cls e :
  download_instances rt net cls = Err e →
  (∀ i, EvAdd i ∈ trace (bootstrap rt net file).2 → model i ≠ cls)
  ∧ rows_of (db (bootstrap rt net file).2) cls = rows_of file cls.
Proof.
  intros He. destruct (bootstrap_unfold rt net file) as (bs & d' & s & Hbs & Hfl & Hs & ->).
  assert (∀ b, b ∈ bs → b.1 ≠ cls) as Hne.
  { intros b Hb Heq. subst cls. unfold fetched in Hbs. rewrite Forall_forall in Hbs.
    specialize (Hbs _ Hb). congruence. }
  simpl. split.
  - intros i Hi. apply elem_of_cons in Hi as [?|Hi]; [done|].
    apply elem_of_app in Hi as [Hi|Hi].
    + apply elem_of_batches_events in Hi as (b & Hb & Hi).
      rewrite (fetched_model _ _ _ Hbs Hb Hi). by apply Hne.
    + destruct s as [|c e'|c recs e']; simpl in *.
      * by apply elem_of_nil in Hi.
      * apply list_elem_of_singleton in Hi. done.
      * apply elem_of_cons in Hi as [?|Hi]; [done|].
        apply list_elem_of_fmap in Hi as (j & [= ->] & Hj).
        destruct Hs as (rest & _ & Hd & _).
        rewrite (download_instances_model _ _ _ _ _ Hd Hj). congruence.
  - eapply uncommitted_rows; [done..|].
    intros (b & -> & Hb)%list_elem_of_fmap. by eapply Hne.
Qed.

Lemma batches_events_no_create_all bs : EvCreateAll ∉ batches_events bs.
Proof.
  unfold batches_events. induction bs as [|b bs IH]; simpl; [apply not_elem_of_nil|].
  intros [?|H]%elem_of_cons; [done|].
  rewrite <- app_assoc in H. apply elem_of_app in H as [H|H].
  - by apply list_elem_of_fmap in H as (? & ? & ?).
  - apply elem_of_cons in H as [?|H]; [done|]. by apply IH.
Qed.

Lemma stop_events_no_create_all s : EvCreateAll ∉ stop_events s.
Proof.
  destruct s as [|c e|c recs e]; simpl.
  - apply not_elem_of_nil.
  - by intros ?%list_elem_of_singleton.
  - intros [?|H]%elem_of_cons; [done|].
    by apply list_elem_of_fmap in H as (? & ? & ?).
Qed.

(** C9: when a row of the frame served for [cls] fails validation,
    [download_instances] raises instead of returning a list, no instance of
    [cls] is ever added to the session during the run, and the rows the file
    holds for [cls] are those it held before. *)
Theorem invalid_row_adds_nothing file cls r df row e0 :
  net (URL cls) = Returns r → content r = CsvGz df →
  row ∈ df → model_validate rt cls (row_dict row) = Err e0 →
  (∃ e, download_instances rt net cls = Err e)
  ∧ (∀ i, EvAdd i ∈ trace (bootstrap rt net file).2 → model i ≠ cls)
  ∧ rows_of (db (bootstrap rt net file).2) cls = rows_of file cls.
Proof.
  intros Hnet Hc Hrow He0.
  assert (∃ e, download_instances rt net cls = Err e) as [e He].
  { unfold download_instances. rewrite Hnet, Hc.
    destruct (negb (ok r)); [eauto|]. by eapply iterrows_Err. }
  split; [eauto|]. by eapply failed_download_untouched.
Qed.

End RunFacts.

Section RunTheorems.
Context (rt : runtime) (net : network).

Lemma for_each_cons cls ms w :
  for_each (cls :: ms) (load_model rt net) w
  = match load_model rt net cls w with
    | (Ok _, w') => for_each ms (load_model rt net) w'
    | (Err e, w') => (Err e, w')
    end.
Proof. done. Qed.

Lemma bootstrap_loop file :
  bootstrap rt net file
  = let '(r, w) := for_each ALL_MODELS (load_model rt net)
                     (mkWorld (create_tables file) [] [EvCreateAll]) in
    (r, mkWorld (db w) [] (trace w)).
Proof. done. Qed.

(** X16: after any run, failed ones included, the file has the table of
    every class. *)
Lemma bootstrap_tables file cls :
  is_Some (db (bootstrap rt net file).2 !! tablename cls).
Proof.
  destruct (bootstrap_unfold rt net file) as (bs & d' & s & Hbs & Hfl & Hs & ->).
  simpl. revert cls. eapply flush_tables; [done|].
  intros cls. rewrite create_tables_lookup. eauto.
Qed.

(** C5: the calls of a run are [create_all] once and first, then, class
    by class in the order of [ALL_MODELS], the download of the class, the
    [session.add] of each of its instances and one commit; a later class's
    download follows the commit of the class before it. A run that raises
    ends inside the block of the class that failed, before its commit. The
    tables of all classes exist once [create_all] has run. *)
Theorem bootstrap_event_order file :
  ∃ bs s,
    fetched rt net bs
    ∧ flush rt (create_tables file) (concat bs.*2) = Ok (db (bootstrap rt net file).2)
    ∧ stopped rt net ALL_MODELS bs (db (bootstrap rt net file).2) s
    ∧ (bootstrap rt net file).1 = stop_result s
    ∧ trace (bootstrap rt net file).2 = EvCreateAll :: batches_events bs ++ stop_events s
    ∧ (EvCreateAll ∉ batches_events bs ++ stop_events s)
    ∧ (∀ cls, is_Some (create_tables file !! tablename cls)).
Proof.
  destruct (bootstrap_unfold rt net file) as (bs & d' & s & Hbs & Hfl & Hs & Hrun).
  exists bs, s. rewrite Hrun. simpl. split_and!; try done.
  - intros [H|H]%elem_of_app.
    + by apply batches_events_no_create_all in H.
    + by apply stop_events_no_create_all in H.
  - intros cls. rewrite create_tables_lookup. eauto.
Qed.

(** C4: when PartCategory and Theme load and commit and the download of
    Part raises (for any reason, a failed fetch included), the run ends with
    that exception right after the download of Part; the file then holds the
    PartCategory and Theme batches after the rows it had, and for every
    other class exactly the rows it had before (none on a new file). In
    general a run that raises leaves every batch committed before the
    failing class in the file, and the rows of the failing class and of all
    classes after it as they were. *)
Theorem part_failure_isolated :
  (∀ file pcs ths d1 d2 e,
      download_instances rt net PartCategory = Ok pcs →
      flush rt (create_tables file) pcs = Ok d1 →
      download_instances rt net Theme = Ok ths →
      flush rt d1 ths = Ok d2 →
      download_instances rt net Part = Err e →
      bootstrap rt net file
      = (Err e,
         mkWorld d2 []
           (EvCreateAll :: entity_events PartCategory pcs
              ++ entity_events Theme ths ++ [EvDownload Part]))
      ∧ (∃ pcs', rows_of d2 PartCategory = rows_of file PartCategory ++ pcs'
                 ∧ Forall2 (stored_as rt) pcs pcs')
      ∧ (∃ ths', rows_of d2 Theme = rows_of file Theme ++ ths'
                 ∧ Forall2 (stored_as rt) ths ths')
      ∧ (∀ cls, cls ≠ PartCategory → cls ≠ Theme → rows_of d2 cls = rows_of file cls))
  ∧ (∀ file e,
      (bootstrap rt net file).1 = Err e →
      ∃ bs cls rest,
        ALL_MODELS = bs.*1 ++ cls :: rest ∧ fetched rt net bs
        ∧ (download_instances rt net cls = Err e
           ∨ ∃ recs, download_instances rt net cls = Ok recs
                     ∧ flush rt (db (bootstrap rt net file).2) recs = Err e)
        ∧ (∀ b, b ∈ bs →
             ∃ recs', rows_of (db (bootstrap rt net file).2) b.1 = rows_of file b.1 ++ recs'
                      ∧ Forall2 (stored_as rt) b.2 recs')
        ∧ (∀ c, c ∈ cls :: rest →
             rows_of (db (bootstrap rt net file).2) c = rows_of file c)).
Proof.
  split.
  - intros file pcs ths d1 d2 e Hpc Hf1 Hth Hf2 Hpart.
    set (bs := [(PartCategory, pcs); (Theme, ths)]).
    assert (fetched rt net bs) as Hbs by (by repeat constructor).
    assert (flush rt (create_tables file) (concat bs.*2) = Ok d2) as Hfl.
    { simpl. rewrite app_nil_r, flush_app, Hf1. done. }
    split_and!.
    + rewrite bootstrap_loop. unfold ALL_MODELS.
      rewrite for_each_cons, load_model_unfold, Hpc by done. cbn [db trace]. rewrite Hf1.
      rewrite for_each_cons, load_model_unfold, Hth by done. cbn [db trace]. rewrite Hf2.
      rewrite for_each_cons, load_model_unfold, Hpart by done. cbn [db trace].
      by rewrite <- !app_assoc.
    + apply (committed_rows rt net file bs d2 (PartCategory, pcs)); try done.
      * apply (bool_decide_unpack _). by vm_compute.
      * by left.
    + apply (committed_rows rt net file bs d2 (Theme, ths)); try done.
      * apply (bool_decide_unpack _). by vm_compute.
      * right. by left.
    + intros cls H1 H2. apply (uncommitted_rows rt net file bs); try done.
      simpl. intros [?|[?|?%elem_of_nil]%elem_of_cons]%elem_of_cons; done.
  - intros file e.
    destruct (bootstrap_unfold rt net file) as (bs & d' & s & Hbs & Hfl & Hs & ->).
    simpl. intros He.
    assert (∃ cls rest,
               ALL_MODELS = bs.*1 ++ cls :: rest
               ∧ (download_instances rt net cls = Err e
                  ∨ ∃ recs, download_instances rt net cls = Ok recs
                            ∧ flush rt d' recs = Err e)) as (cls & rest & Heq & Hwhy).
    { destruct s as [|c e'|c recs e']; simpl in *; [done|..]; injection He as ->.
      - destruct Hs as (rest & ? & ?). exists c, rest. eauto.
      - destruct Hs as (rest & ? & ? & ?). exists c, rest. eauto. }
    pose proof ALL_MODELS_NoDup as Hnd. rewrite Heq in Hnd.
    apply NoDup_app in Hnd as (Hnd & Hdisj & _).
    exists bs, cls, rest. split_and!; try done.
    + intros b Hb. by eapply committed_rows.
    + intros c Hc. eapply uncommitted_rows; [done..|].
      intros Hin. by eapply Hdisj.
Qed.

Lemma bootstrap_first_commit_fails file recs e :
  download_instances rt net PartCategory = Ok recs →
  flush rt (create_tables file) recs = Err e →
  bootstrap rt net file
  = (Err e, mkWorld (create_tables file) []
              (EvCreateAll :: EvDownload PartCategory :: (EvAdd <$> recs))).
Proof.
  intros Hd Hf. rewrite bootstrap_loop. unfold ALL_MODELS.
  rewrite for_each_cons, load_model_unfold, Hd by done. cbn [db trace]. by rewrite Hf.
Qed.

(** C6, as amended: a run never removes a row ([create_all] keeps the
    tables that exist, commits append). A run on a file that already holds a
    PartCategory row with the key of a row of the PartCategory source stops at
    the first commit with a database error and leaves the rows as they were;
    the error is [IntegrityError] when every row of the batch carries its key
    and only 64-bit integers (an earlier row may otherwise raise
    [OverflowError] or find no row id left before the repeated key is
    reached). In particular a second run after a successful one, whose
    PartCategory source has a row with its key given, stops in this way, with
    [IntegrityError] when every row of the batch carries its key. *)
Theorem rerun_does_not_rebuild file :
  (∀ cls, rows_of file cls `prefix_of` rows_of (db (bootstrap rt net file).2) cls)
  ∧ (∀ recs i row,
      download_instances rt net PartCategory = Ok recs → i ∈ recs →
      row ∈ rows_of file PartCategory → pk_of row = pk_of i →
      forallb not_null (pk_of i) = true →
      ∃ e,
        bootstrap rt net file
        = (Err e,
           mkWorld (create_tables file) []
             (EvCreateAll :: EvDownload PartCategory :: (EvAdd <$> recs)))
        ∧ (e = IntegrityError ∨ e = OverflowError ∨ e = DatabaseFull)
        ∧ (Forall (λ j, storable j = true) recs → e = IntegrityError))
  ∧ (∀ recs i,
      (bootstrap rt net file).1 = Ok () →
      download_instances rt net PartCategory = Ok recs → i ∈ recs →
      forallb not_null (pk_of i) = true →
      ∃ e,
        bootstrap rt net (db (bootstrap rt net file).2)
        = (Err e,
           mkWorld (db (bootstrap rt net file).2) []
             (EvCreateAll :: EvDownload PartCategory :: (EvAdd <$> recs)))
        ∧ (e = IntegrityError ∨ e = DatabaseFull)
        ∧ (Forall (λ j, forallb not_null (pk_of j) = true) recs
           → e = IntegrityError)).
Proof.
  assert (∀ f recs i row,
      download_instances rt net PartCategory = Ok recs → i ∈ recs →
      row ∈ rows_of f PartCategory → pk_of row = pk_of i →
      forallb not_null (pk_of i) = true →
      ∃ e,
        flush rt (create_tables f) recs = Err e
        ∧ bootstrap rt net f
          = (Err e,
             mkWorld (create_tables f) []
               (EvCreateAll :: EvDownload PartCategory :: (EvAdd <$> recs))))
    as Hcollide.
  { intros f recs i row Hd Hi Hrow Hpk Hnn.
    pose proof (download_instances_model _ _ _ _ _ Hd Hi) as Hm.
    destruct (flush_collision rt (create_tables f) recs i row) as [e He]; try done.
    { by rewrite Hm, rows_of_create_tables. }
    exists e. split; [done|]. by apply bootstrap_first_commit_fails. }
  assert (∀ f, ∀ cls, is_Some (create_tables f !! tablename cls)) as Htab.
  { intros f cls. rewrite create_tables_lookup. eauto. }
  split_and!.
  - intros cls.
    destruct (bootstrap_unfold rt net file) as (bs & d' & s & Hbs & Hfl & Hs & ->).
    simpl. destruct (flush_rows_of rt _ _ _ cls Hfl) as (recs' & -> & _).
    rewrite rows_of_create_tables. by apply prefix_app_r.
  - intros recs i row Hd Hi Hrow Hpk Hnn.
    destruct (Hcollide file recs i row) as (e & He & Hrun); try done.
    exists e. split; [done|]. by apply (flush_Err rt (create_tables file) recs).
  - intros recs i Hrun Hd Hi Hnn.
    destruct (bootstrap_unfold rt net file) as (bs & d' & s & Hbs & Hfl & Hs & Hrun').
    rewrite Hrun' in *. destruct s; simpl in *; [|done..].
    destruct bs as [|[c recs0] bs]; [done|]. injection Hs as <- Hs.
    pose proof Hbs as [Hd0 _]%Forall_cons. simpl in Hd0.
    rewrite Hd in Hd0. injection Hd0 as <-.
    destruct (flush_rows_of rt _ _ _ PartCategory Hfl) as (recs' & Hr & Hst).
    simpl in Hst. rewrite filter_app in Hst.
    rewrite (filter_model_same recs) in Hst
      by (intros j Hj; by eapply download_instances_model).
    apply Forall2_app_inv_l in Hst as (r1 & r2 & Hst & _ & ->).
    apply list_elem_of_lookup in Hi as [n Hn].
    destruct (Forall2_lookup_l _ _ _ _ _ Hst Hn) as (i' & Hn' & [rows Hi']).
    rewrite assign_rowid_explicit in Hi' by done. injection Hi' as <-.
    assert (∀ cls, is_Some (d' !! tablename cls)) as Hd'.
    { eapply flush_tables; [done|]. apply Htab. }
    destruct (Hcollide d' recs i i) as (e & He & Hrun2); try done.
    { eapply list_elem_of_lookup_2; eauto. }
    { rewrite Hr. apply elem_of_app. right. apply elem_of_app. left.
      by eapply list_elem_of_lookup_2. }
    rewrite create_tables_id in He, Hrun2 by done.
    exists e. split; [done|].
    simpl in Hfl. rewrite flush_app in Hfl.
    destruct (flush rt (create_tables file) recs) as [d1|] eqn:Hf1; [|done].
    pose proof (flush_fits rt _ _ _ Hf1) as Hfit.
    destruct (flush_Err_why rt d' recs e He Hd') as (Hcase & Hov & Hfull).
    split.
    + destruct Hcase as [-> | [-> | ->]]; [by left| |by right].
      destruct (proj1 (Exists_exists _ _) (Hov eq_refl)) as (j & Hj & Hjf).
      rewrite Forall_forall in Hfit. rewrite (Hfit j Hj) in Hjf. done.
    + intros Hall. destruct Hcase as [-> | [-> | ->]]; [done|..].
      * destruct (proj1 (Exists_exists _ _) (Hov eq_refl)) as (j & Hj & Hjf).
        rewrite Forall_forall in Hfit. rewrite (Hfit j Hj) in Hjf. done.
      * destruct (proj1 (Exists_exists _ _) (Hfull eq_refl)) as (j & Hj & Hjf).
        rewrite Forall_forall in Hall. rewrite (Hall j Hj) in Hjf. done.
Qed.

End RunTheorems.

(** ** The element id of a line that has none *)

(** X2: [Element.convert_id] turns a missing element id into text before the
    field is validated: no error ever names [element_id], and an instance
    that is built carries the text None. *)
Lemma element_id_gap_becomes_text rt row v :
  to_dict row !! "element_id" = Some v → isna v = true →
  match model_validate rt Element (row_dict row) with
  | Ok i => getattr "element_id" (attrs i) = Some (AStr "None")
  | Err e => ∃ errs, e = ValidationError Element errs ∧ "element_id" ∉ errs
  end.
Proof.
  intros Hv Hna.
  assert (row_dict row !! "element_id" = Some PNone) as Hd.
  { rewrite row_dict_lookup, Hv. simpl. by rewrite nan_to_none_isna. }
  set (values := <["element_id":=PStr "None"]> (row_dict row)).
  rewrite (model_validate_unfold rt Element _ values)
    by (simpl; unfold convert_id; by rewrite Hd).
  assert (validate_field rt element_id_field values = Some (AStr "None")) as Hf.
  { unfold validate_field, values. simpl. by rewrite lookup_insert_eq. }
  assert (element_id_field ∈ fields Element) as Hin by by left.
  pose proof (validate_fields_getattr rt _ values _ _ Hin (fields_names_NoDup Element) Hf) as Hg.
  pose proof (validate_fields_errs_inv rt (fields Element) values "element_id") as He.
  destruct (validate_fields rt (fields Element) values) as [vals [|k errs]]; [done|].
  simpl in He. eexists. split; [done|]. intros Hk.
  destruct (He Hk) as (f & Hfin & Hname & Hnone).
  assert (f = element_id_field) as ->; [|congruence].
  simpl in Hfin. set_unfold in Hfin. destruct_or?; subst; done.
Qed.

(** C2: at the line [,3001a,4] of the elements file the load does not
    raise: the instance is built with the text None as its element id. *)
Theorem nan_element_id_loaded_as_text rt :
  download_instances rt net_element_gap Element = Ok [element_None].
Proof. by vm_compute. Qed.

(** ** Evaluation on the sample inputs *)

Lemma load_order_topological_witness :
  ∃ i j, position Part ALL_MODELS = Some i ∧ position Element ALL_MODELS = Some j
         ∧ (i < j)%nat.
Proof.
  apply (load_order_topological Element Part); [|done].
  apply (bool_decide_unpack _). by vm_compute.
Defined.

(** C3 as stated fails: a final response with status 300 is not a 2xx
    response, yet it is ok for [requests] and its rows are loaded. *)
Lemma status_300_is_loaded :
  ¬ (200 ≤ 300 < 300)
  ∧ net_300 (URL PartCategory) = Returns (mkResponse 300 (CsvGz (catalog_frame PartCategory)))
  ∧ ∀ rt, download_instances rt net_300 PartCategory = Ok [baseplates].
Proof. split_and!; [lia | by vm_compute | intros rt; by vm_compute]. Qed.

Lemma error_status_raises_witness :
  download_instances example_runtime net_part_404 Part = Err RuntimeError
  ∧ download_instances example_runtime net_300 PartCategory
    = iterrows example_runtime PartCategory (catalog_frame PartCategory) [].
Proof.
  split.
  - apply (error_status_raises example_runtime net_part_404 Part
             (mkResponse 404 (CsvGz []))); [by vm_compute | simpl; lia].
  - apply (error_status_raises example_runtime net_300 PartCategory
             (mkResponse 300 (CsvGz (catalog_frame PartCategory))));
      [by vm_compute | simpl; lia].
Defined.

Lemma part_failure_isolated_witness :
  bootstrap example_runtime net_part_404 ∅
  = (Err RuntimeError,
     mkWorld after_themes []
       (EvCreateAll :: entity_events PartCategory [baseplates]
          ++ entity_events Theme [technic] ++ [EvDownload Part]))
  ∧ rows_of after_themes Part = rows_of ∅ Part
  ∧ rows_of after_themes Element = rows_of ∅ Element.
Proof.
  destruct (proj1 (part_failure_isolated example_runtime net_part_404) ∅
              [baseplates] [technic] after_part_categories after_themes RuntimeError)
    as (Hrun & _ & _ & Hother).
  - vm_cast_no_check (eq_refl (Ok (A:=list Instance) [baseplates])).
  - vm_cast_no_check (eq_refl (Ok after_part_categories)).
  - vm_cast_no_check (eq_refl (Ok (A:=list Instance) [technic])).
  - vm_cast_no_check (eq_refl (Ok after_themes)).
  - vm_cast_no_check (eq_refl (Err (A:=list Instance) RuntimeError)).
  - split_and!; [exact Hrun | apply Hother; discriminate ..].
Defined.

(** C6 as stated fails: a second run on the file a first, successful run
    left raises [IntegrityError]. *)
Lemma second_run_fails :
  (bootstrap example_runtime net_ok ∅).1 = Ok ()
  ∧ (bootstrap example_runtime net_ok (db (bootstrap example_runtime net_ok ∅).2)).1
    = Err IntegrityError.
Proof. split; by vm_compute. Qed.

Lemma rerun_does_not_rebuild_witness :
  ∃ e,
    bootstrap example_runtime net_ok (db (bootstrap example_runtime net_ok ∅).2)
    = (Err e,
       mkWorld (db (bootstrap example_runtime net_ok ∅).2) []
         (EvCreateAll :: EvDownload PartCategory :: (EvAdd <$> [baseplates])))
    ∧ (e = IntegrityError ∨ e = DatabaseFull)
    ∧ (Forall (λ j, forallb not_null (pk_of j) = true) [baseplates]
       → e = IntegrityError).
Proof.
  apply (proj2 (proj2 (rerun_does_not_rebuild example_runtime net_ok ∅))
           [baseplates] baseplates).
  - vm_cast_no_check (eq_refl (Ok ())).
  - vm_cast_no_check (eq_refl (Ok (A:=list Instance) [baseplates])).
  - by left.
  - vm_cast_no_check (eq_refl true).
Defined.

Lemma invalid_row_adds_nothing_witness :
  (∃ e, download_instances example_runtime net_nameless_color Color = Err e)
  ∧ (∀ i, EvAdd i ∈ trace (bootstrap example_runtime net_nameless_color ∅).2 →
          model i ≠ Color)
  ∧ rows_of (db (bootstrap example_runtime net_nameless_color ∅).2) Color = rows_of ∅ Color.
Proof.
  eapply (invalid_row_adds_nothing example_runtime net_nameless_color ∅ Color _ _
            [("id", PInt 2); ("name", PFloat S754_nan); ("rgb", PStr "0055BF");
             ("is_trans", PBool false)]).
  - by vm_compute.
  - done.
  - right. by left.
  - by vm_compute.
Defined.

Lemma rel_type_closed_enumeration_witness :
  (∃ errs, model_validate example_runtime PartRelationship (row_dict unknown_rel_row)
           = Err (ValidationError PartRelationship errs) ∧ "rel_type" ∈ errs)
  ∧ match model_validate example_runtime PartRelationship (row_dict print_row) with
    | Ok i => getattr "rel_type" (attrs i) = Some (AEnum PRINT)
    | Err e => ∃ errs, e = ValidationError PartRelationship errs ∧ "rel_type" ∉ errs
    end
  ∧ model_validate example_runtime PartRelationship (row_dict print_row)
    = Ok (mkInstance PartRelationship
            [("rel_type", AEnum PRINT); ("child_part_num", AStr "3001pr0001");
             ("parent_part_num", AStr "3001a")]).
Proof.
  destruct (rel_type_closed_enumeration example_runtime) as (Hout & Hin & Hok).
  split_and!.
  - apply Hout. intros m. destruct m; by vm_compute.
  - apply (Hin print_row PRINT). by vm_compute.
  - apply (Hok print_row PRINT "3001pr0001" "3001a");
      [by vm_compute | by vm_compute | by vm_compute | simpl; lia | simpl; lia].
Defined.


Lemma one_record_per_row_witness :
  Forall2 (λ row m, model_validate example_runtime Color (row_dict row) = Ok m)
          (catalog_frame Color) [black; trans_clear].
Proof.
  apply (one_record_per_row example_runtime net_ok Color
           (mkResponse 200 (CsvGz (catalog_frame Color))) (catalog_frame Color)
           [black; trans_clear]); by vm_compute.
Defined.

(** * Further properties *)

(** ** Fields of one row *)

Section FieldFacts.
Context (rt : runtime).

Lemma validate_fields_ext fs (d1 d2 : dict) :
  (∀ f, f ∈ fs → d1 !! name f = d2 !! name f) →
  validate_fields rt fs d1 = validate_fields rt fs d2.
Proof.
  induction fs as [|f fs IH]; intros H; [done|].
  simpl. rewrite IH by (intros g Hg; apply H; by right).
  unfold validate_field. by rewrite (H f) by by left.
Qed.

Lemma field_by_name cls f g :
  f ∈ fields cls → g ∈ fields cls → name f = name g → f = g.
Proof.
  intros Hf Hg Hn. pose proof (fields_names_NoDup cls) as Hnd.
  apply list_elem_of_lookup in Hf as [i Hi]. apply list_elem_of_lookup in Hg as [j Hj].
  assert (i = j) as ->; [|congruence].
  eapply NoDup_lookup; [done| |]; rewrite list_lookup_fmap.
  - by rewrite Hi.
  - by rewrite Hj, Hn.
Qed.

(** The values after the before-validator agree with the input away from
    [element_id]. *)
Lemma before_validators_lookup cls d values k :
  before_validators rt cls d = Ok values → k ≠ "element_id" → values !! k = d !! k.
Proof.
  destruct cls; simpl; try (by intros [= <-]).
  unfold convert_id. destruct (d !! "element_id"); [|done].
  intros [= <-] Hk. by rewrite lookup_insert_ne.
Qed.

Lemma before_validators_total cls d :
  (cls = Element → is_Some (d !! "element_id")) →
  ∃ values, before_validators rt cls d = Ok values.
Proof.
  intros H. destruct cls; simpl; eauto.
  unfold convert_id. destruct (H eq_refl) as [v ->]. eauto.
Qed.

(** A field that validates is never reported, and its value is the
    attribute of the instance when one is built. *)
Lemma field_valid_result cls d values f x :
  before_validators rt cls d = Ok values → f ∈ fields cls →
  validate_field rt f values = Some x →
  match model_validate rt cls d with
  | Ok i => getattr (name f) (attrs i) = Some x
  | Err e => ∃ errs, e = ValidationError cls errs ∧ name f ∉ errs
  end.
Proof.
  intros Hb Hin Hf. rewrite (model_validate_unfold rt cls d values Hb).
  pose proof (validate_fields_getattr rt _ values _ _ Hin (fields_names_NoDup cls) Hf) as Hg.
  pose proof (validate_fields_errs_inv rt (fields cls) values (name f)) as He.
  destruct (validate_fields rt (fields cls) values) as [vals [|k errs]]; [done|].
  simpl in He. eexists. split; [done|]. intros Hk.
  destruct (He Hk) as (g & Hgin & Hname & Hnone).
  rewrite (field_by_name cls g f Hgin Hin Hname) in Hnone. congruence.
Qed.

Lemma row_dict_is_Some row k : is_Some (to_dict row !! k) → is_Some (row_dict row !! k).
Proof. intros [v Hv]. rewrite row_dict_lookup, Hv. by eexists. Qed.

Lemma model_validate_Err_inv cls d e :
  model_validate rt cls d = Err e →
  (cls = Element ∧ e = KeyError "element_id")
  ∨ ∃ errs, e = ValidationError cls errs ∧ errs ≠ []
            ∧ ∀ k, k ∈ errs → k ∈ name <$> fields cls.
Proof.
  unfold model_validate.
  destruct (before_validators rt cls d) as [values|e'] eqn:Hb; simpl.
  - pose proof (validate_fields_errs_inv rt (fields cls) values) as He.
    destruct (validate_fields rt (fields cls) values) as [vals [|k errs]]; [done|].
    intros [= <-]. right. eexists. split_and!; [done..|].
    intros k' (f & Hf & <- & _)%He. by apply list_elem_of_fmap_2.
  - intros [= <-]. left. destruct cls; simpl in Hb; try done.
    unfold convert_id in Hb. destruct (d !! "element_id"); [done|].
    by injection Hb as <-.
Qed.

(** X3: columns that are no field of the class do not matter: rows that
    agree under every field name validate to the same result. *)
Theorem other_columns_ignored cls (r1 r2 : Series) :
  (∀ f, f ∈ fields cls → to_dict r1 !! name f = to_dict r2 !! name f) →
  model_validate rt cls (row_dict r1) = model_validate rt cls (row_dict r2).
Proof.
  intros H.
  assert (∀ f, f ∈ fields cls → row_dict r1 !! name f = row_dict r2 !! name f) as Hd.
  { intros f Hf. by rewrite !row_dict_lookup, (H f Hf). }
  unfold model_validate.
  assert (∀ v1 v2, before_validators rt cls (row_dict r1) = Ok v1 →
                   before_validators rt cls (row_dict r2) = Ok v2 →
                   validate_fields rt (fields cls) v1 = validate_fields rt (fields cls) v2)
    as Hvals.
  { intros v1 v2 H1 H2. apply validate_fields_ext. intros f Hf.
    destruct (decide (name f = "element_id")) as [Hn|Hn].
    - destruct cls; simpl in H1, H2; simplify_eq; try by apply Hd.
      unfold convert_id in *.
      assert (row_dict r1 !! "element_id" = row_dict r2 !! "element_id") as He.
      { rewrite <- Hn. by apply Hd. }
      rewrite <- He in H2. destruct (row_dict r1 !! "element_id"); [|done].
      simplify_eq. by rewrite Hn, !lookup_insert_eq.
    - rewrite (before_validators_lookup _ _ _ _ H1 Hn),
        (before_validators_lookup _ _ _ _ H2 Hn). by apply Hd. }
  destruct (before_validators rt cls (row_dict r1)) as [v1|e1] eqn:H1,
           (before_validators rt cls (row_dict r2)) as [v2|e2] eqn:H2; simpl.
  - by rewrite (Hvals v1 v2).
  - exfalso. destruct cls; simpl in *; try done. unfold convert_id in *.
    assert (row_dict r1 !! "element_id" = row_dict r2 !! "element_id") as He
      by (apply (Hd element_id_field); by left).
    rewrite He in H1. by destruct (row_dict r2 !! "element_id").
  - exfalso. destruct cls; simpl in *; try done. unfold convert_id in *.
    assert (row_dict r1 !! "element_id" = row_dict r2 !! "element_id") as He
      by (apply (Hd element_id_field); by left).
    rewrite He in H1. by destruct (row_dict r2 !! "element_id").
  - destruct cls; simpl in *; try done. unfold convert_id in *.
    destruct (row_dict r1 !! "element_id"), (row_dict r2 !! "element_id"); congruence.
Qed.

Lemma validate_field_conforms f (d : dict) x :
  validate_field rt f d = Some x → conforms f x.
Proof.
  unfold validate_field.
  destruct (d !! name f) as [v|].
  - unfold validate_value.
    assert ((x' ← coerce rt (annot f) v;
             if within_max_length (max_length f) x' then Some x' else None) = Some x →
            conforms f x) as Hc.
    { destruct (coerce rt (annot f) v) as [x'|] eqn:Ec; simpl; [|done].
      destruct (within_max_length (max_length f) x') eqn:El; [|done].
      intros [= <-]. unfold coerce in Ec.
      destruct (annot f) eqn:Ea; simpl in Ec.
      - destruct (validate_int rt v); simplify_eq/=. done.
      - destruct (validate_str v); simplify_eq/=. split; [done|].
        intros n Hn. rewrite Hn in El. simpl in El. by apply Nat.leb_le.
      - destruct (validate_bool rt v); simplify_eq/=. done.
      - destruct (validate_enum v); simplify_eq/=. done. }
    destruct v; try exact Hc.
    destruct (optional f) eqn:Eo; [|done]. intros [= <-]. by left.
  - destruct (default_none f) eqn:Ed; [|done]. intros [= <-]. by right.
Qed.

(** X4: an instance that is built has the class it was asked for and one
    attribute per declared field, in declaration order, each conforming to
    its field. *)
Theorem instance_conforms cls d i :
  model_validate rt cls d = Ok i →
  model i = cls
  ∧ Forall2 (λ f kx, kx.1 = name f ∧ conforms f kx.2) (fields cls) (attrs i).
Proof.
  intros (values & _ & Herrs & ->)%model_validate_inv. split; [done|]. simpl.
  revert Herrs. generalize (fields cls). intros fs.
  induction fs as [|f fs IH]; simpl; [constructor|].
  destruct (validate_fields rt fs values) as [vals errs] eqn:E. simpl in IH.
  destruct (validate_field rt f values) as [x|] eqn:Ef; simpl; [|done].
  intros ->. constructor; [|by apply IH].
  split; [done|]. by eapply validate_field_conforms.
Qed.

End FieldFacts.

Section RowFacts.
Context (rt : runtime).

(** X5: a column a class requires and the file does not have is reported
    as a missing field of every row. *)
Theorem missing_column_rejected cls f (row : Series) :
  f ∈ fields cls → default_none f = false →
  to_dict row !! name f = None →
  (cls = Element → is_Some (to_dict row !! "element_id")) →
  ∃ errs, model_validate rt cls (row_dict row) = Err (ValidationError cls errs)
          ∧ name f ∈ errs.
Proof.
  intros Hin Hd Hrow Hel.
  destruct (before_validators_total rt cls (row_dict row)) as [values Hb].
  { intros Hc. by apply row_dict_is_Some, Hel. }
  apply (model_validate_err rt cls _ values f Hb Hin).
  assert (name f ≠ "element_id") as Hn.
  { intros Hn. rewrite Hn in Hrow.
    destruct cls; try (set_unfold in Hin; destruct_or?; subst; done).
    destruct (Hel eq_refl) as [? ?]. congruence. }
  unfold validate_field.
  rewrite (before_validators_lookup rt _ _ _ _ Hb Hn), row_dict_lookup, Hrow. simpl.
  by rewrite Hd.
Qed.

(** X6: a field declared with [default=None] (the [id] of six classes) may
    be absent from the file: it is never reported and the instance holds
    [None] there. *)
Theorem absent_default_is_None cls f (row : Series) :
  f ∈ fields cls → default_none f = true →
  to_dict row !! name f = None →
  (cls = Element → is_Some (to_dict row !! "element_id")) →
  match model_validate rt cls (row_dict row) with
  | Ok i => getattr (name f) (attrs i) = Some ANone
  | Err e => ∃ errs, e = ValidationError cls errs ∧ name f ∉ errs
  end.
Proof.
  intros Hin Hd Hrow Hel.
  destruct (before_validators_total rt cls (row_dict row)) as [values Hb].
  { intros Hc. by apply row_dict_is_Some, Hel. }
  apply (field_valid_result rt cls _ values f ANone Hb Hin).
  assert (name f ≠ "element_id") as Hn.
  { intros Hn. rewrite Hn in Hrow.
    destruct cls; set_unfold in Hin; destruct_or?; subst; done. }
  unfold validate_field.
  rewrite (before_validators_lookup rt _ _ _ _ Hb Hn), row_dict_lookup, Hrow. simpl.
  by rewrite Hd.
Qed.

(** X7: a missing value under an [Optional] field ([Theme.parent_id]) is
    accepted as [None]. *)
Theorem optional_gap_is_None cls f (row : Series) v :
  f ∈ fields cls → optional f = true →
  to_dict row !! name f = Some v → isna v = true →
  match model_validate rt cls (row_dict row) with
  | Ok i => getattr (name f) (attrs i) = Some ANone
  | Err e => ∃ errs, e = ValidationError cls errs ∧ name f ∉ errs
  end.
Proof.
  intros Hin Ho Hrow Hna.
  assert (cls = Theme ∧ name f = "parent_id") as [-> Hn].
  { destruct cls; set_unfold in Hin; destruct_or?; subst; done. }
  apply (field_valid_result rt Theme _ (row_dict row) f ANone); [done..|].
  unfold validate_field.
  rewrite row_dict_lookup, Hrow. simpl. rewrite nan_to_none_isna by done. simpl.
  by rewrite Ho.
Qed.

(** X8: text longer than the [max_length] of its field is reported. *)
Theorem long_text_rejected cls f (row : Series) s n :
  f ∈ fields cls → annot f = TStr → max_length f = Some n →
  to_dict row !! name f = Some (PStr s) → (n < String.length s)%nat →
  (cls = Element → is_Some (to_dict row !! "element_id")) →
  ∃ errs, model_validate rt cls (row_dict row) = Err (ValidationError cls errs)
          ∧ name f ∈ errs.
Proof.
  intros Hin Ha Hm Hrow Hlen Hel.
  destruct (before_validators_total rt cls (row_dict row)) as [values Hb].
  { intros Hc. by apply row_dict_is_Some, Hel. }
  apply (model_validate_err rt cls _ values f Hb Hin).
  assert (values !! name f = Some (PStr s)) as Hv.
  { destruct (decide (name f = "element_id")) as [Hn|Hn].
    - assert (row_dict row !! "element_id" = Some (PStr s)) as Hd
        by (by rewrite <- Hn, row_dict_lookup, Hrow).
      destruct cls; simpl in Hb; simplify_eq; try (by rewrite Hn).
      unfold convert_id in Hb. rewrite Hd in Hb. simplify_eq.
      by rewrite Hn, lookup_insert_eq.
    - by rewrite (before_validators_lookup rt _ _ _ _ Hb Hn), row_dict_lookup, Hrow. }
  unfold validate_field, validate_value. rewrite Hv, Ha, Hm. simpl.
  apply Nat.leb_gt in Hlen. by rewrite Hlen.
Qed.

(** X9: a number or a boolean under a text field is reported; only
    [Element.element_id] is turned into text first. *)
Theorem non_text_rejected cls f (row : Series) v :
  f ∈ fields cls → annot f = TStr →
  (cls, name f) ≠ (Element, "element_id") →
  to_dict row !! name f = Some v → isna v = false → (∀ s, v ≠ PStr s) →
  (cls = Element → is_Some (to_dict row !! "element_id")) →
  ∃ errs, model_validate rt cls (row_dict row) = Err (ValidationError cls errs)
          ∧ name f ∈ errs.
Proof.
  intros Hin Ha Hne Hrow Hna Hv Hel.
  destruct (before_validators_total rt cls (row_dict row)) as [values Hb].
  { intros Hc. by apply row_dict_is_Some, Hel. }
  apply (model_validate_err rt cls _ values f Hb Hin).
  assert (name f ≠ "element_id") as Hn.
  { intros Hn. destruct cls; set_unfold in Hin; destruct_or?; subst; done. }
  unfold validate_field, validate_value.
  rewrite (before_validators_lookup rt _ _ _ _ Hb Hn), row_dict_lookup, Hrow. simpl.
  unfold nan_to_none. rewrite Hna, Ha. simpl.
  destruct v; try done. by destruct (Hv s).
Qed.

(** X10: an element id read as an integer and one read as the same numeral
    in text give the same result. *)
Theorem element_id_int_as_text (d : dict) z :
  model_validate rt Element (<["element_id" := PInt z]> d)
  = model_validate rt Element (<["element_id" := PStr (pretty z)]> d).
Proof.
  unfold model_validate. simpl. unfold convert_id.
  rewrite !lookup_insert_eq. simpl. by rewrite !insert_insert_eq.
Qed.

(** X11: elements whose ids are different integers keep different ids. *)
Theorem element_ids_stay_distinct (d1 d2 : dict) z1 z2 i1 i2 :
  d1 !! "element_id" = Some (PInt z1) → d2 !! "element_id" = Some (PInt z2) →
  model_validate rt Element d1 = Ok i1 → model_validate rt Element d2 = Ok i2 →
  z1 ≠ z2 →
  getattr "element_id" (attrs i1) ≠ getattr "element_id" (attrs i2).
Proof.
  intros H1 H2 Hi1 Hi2 Hz.
  assert (∀ d z i, d !! "element_id" = Some (PInt z) →
                   model_validate rt Element d = Ok i →
                   getattr "element_id" (attrs i) = Some (AStr (pretty z))) as Hid.
  { intros d z i Hd Hi.
    assert (before_validators rt Element d
            = Ok (<["element_id" := PStr (pretty z)]> d)) as Hb.
    { simpl. unfold convert_id. by rewrite Hd. }
    pose proof (model_validate_inv rt _ _ _ Hi) as (values & Hb' & Herrs & ->).
    rewrite Hb in Hb'. injection Hb' as <-.
    assert (element_id_field ∈ fields Element) as Hin by by left.
    destruct (validate_fields_all_valid rt _ _ element_id_field Herrs Hin) as [x Hx].
    pose proof (validate_fields_getattr rt _ _ _ _ Hin (fields_names_NoDup Element) Hx)
      as Hg.
    unfold validate_field in Hx. simpl in Hx. rewrite lookup_insert_eq in Hx.
    simpl in Hx. destruct (String.length (pretty z) <=? 10)%nat; [|done].
    injection Hx as <-. exact Hg. }
  rewrite (Hid _ _ _ H1 Hi1), (Hid _ _ _ H2 Hi2).
  intros [= Heq]. by apply (inj pretty) in Heq.
Qed.

End RowFacts.

(** ** The schema *)

(** X12: every foreign key names a table of the registry and, in it, the
    column that is that table's whole primary key, declared with the same
    type and the same [max_length] as the referring field. *)
Theorem foreign_keys_reference_primary_keys cls f s :
  f ∈ fields cls → foreign_key f = Some s →
  ∃ tgt g,
    entity_of_table (fk_table s) = Some tgt
    ∧ g ∈ fields tgt ∧ name g = fk_column s
    ∧ pk_columns tgt = [name g]
    ∧ annot g = annot f ∧ max_length g = max_length f.
Proof.
  intros Hin Hs.
  destruct cls; set_unfold in Hin; destruct_or?; subst; simpl in Hs;
    try discriminate; injection Hs as <-;
    match goal with
    | |- context [fk_table ?s] =>
        let t := eval vm_compute in (entity_of_table (fk_table s)) in
        match t with
        | Some ?tgt =>
            let c := eval vm_compute in (fk_column s) in
            let g := eval vm_compute in
              (head (filter (λ g, name g = c) (fields tgt))) in
            match g with
            | Some ?g' => exists tgt, g'
            end
        end
    end;
    (split_and!; [by vm_compute | simpl; repeat first [by left | right]
                 | by vm_compute ..]).
Qed.

(** ** Downloads and runs *)

Section MoreRunFacts.
Context (rt : runtime) (net : network).

Lemma iterrows_Err_inv cls df acc e :
  iterrows rt cls df acc = Err e →
  ∃ row, row ∈ df ∧ model_validate rt cls (row_dict row) = Err e.
Proof.
  revert acc. induction df as [|row df IH]; intros acc; simpl; [done|].
  destruct (model_validate rt cls (row_dict row)) as [m|e'] eqn:E; simpl.
  - intros (r & ? & ?)%IH. exists r. split; [by right|done].
  - intros [= <-]. exists row. split; [by left|done].
Qed.

(** X13: the only exceptions a download ends in are the one [requests.get]
    raised, the bare [raise], a decoding failure, the [KeyError] of
    [Element.convert_id] and a [ValidationError] of the class itself that
    names at least one field, all of them fields of the class. *)
Theorem download_raises_only cls e :
  download_instances rt net cls = Err e → download_error cls e.
Proof.
  unfold download_instances, download_error.
  destruct (net (URL cls)) as [|r]; [intros [= <-]; auto|].
  destruct (negb (ok r)); [intros [= <-]; auto|].
  destruct (content r) as [|df]; [intros [= <-]; auto|].
  intros (row & _ & Hrow)%iterrows_Err_inv.
  apply model_validate_Err_inv in Hrow as [?|?]; auto.
Qed.

(** X14: an elements file without the [element_id] column fails at its first
    row with the [KeyError] of [Element.convert_id], not with a validation
    error. *)
Theorem element_id_column_required r row df :
  net (URL Element) = Returns r → ok r = true → content r = CsvGz (row :: df) →
  to_dict row !! "element_id" = None →
  download_instances rt net Element = Err (KeyError "element_id").
Proof.
  intros Hnet Hok Hc Hrow. unfold download_instances. rewrite Hnet, Hok, Hc. simpl.
  unfold model_validate. simpl. unfold convert_id.
  by rewrite row_dict_lookup, Hrow.
Qed.

(** X15: a run never ends for want of a table, [create_all] coming first:
    what a run raises is the very exception one of the downloads raises, or
    an error of the commit of the batch added last ([IntegrityError], the
    [OverflowError] of an integer outside 64 bits, or no row id left). When
    the rows of that batch all carry their key and only 64-bit integers,
    the error is [IntegrityError]. *)
Theorem bootstrap_raises_only file e :
  (bootstrap rt net file).1 = Err e →
  (∃ cls, download_instances rt net cls = Err e)
  ∨ ((e = IntegrityError ∨ e = OverflowError ∨ e = DatabaseFull)
     ∧ ∃ cls recs before,
         download_instances rt net cls = Ok recs
         ∧ trace (bootstrap rt net file).2
           = before ++ EvDownload cls :: (EvAdd <$> recs)
         ∧ (Forall (λ i, storable i = true) recs → e = IntegrityError)).
Proof.
  destruct (bootstrap_unfold rt net file) as (bs & d' & s & Hbs & Hfl & Hs & ->).
  simpl. destruct s as [|c e'|c recs e']; simpl in *; [done|..]; intros [= ->].
  - destruct Hs as (rest & _ & Hd). left. by exists c.
  - destruct Hs as (rest & _ & Hd & Hf). right.
    destruct (flush_Err rt d' recs e Hf) as [Hcase Hst].
    { eapply flush_tables; [done|]. intros cls. rewrite create_tables_lookup. eauto. }
    split; [done|]. exists c, recs, (EvCreateAll :: batches_events bs).
    by rewrite <- app_comm_cons.
Qed.

(** X17: a run that succeeds has downloaded every class, and each table then
    holds the rows it had followed by the class's batch in source order,
    each instance as it was or with its rowid filled in; instances whose
    key is complete are stored unchanged. *)
Theorem successful_run_stores_batches file cls :
  (bootstrap rt net file).1 = Ok () →
  ∃ recs recs',
    download_instances rt net cls = Ok recs
    ∧ rows_of (db (bootstrap rt net file).2) cls = rows_of file cls ++ recs'
    ∧ Forall2 (stored_as rt) recs recs'
    ∧ (Forall (λ i, forallb not_null (pk_of i) = true) recs → recs' = recs).
Proof.
  destruct (bootstrap_unfold rt net file) as (bs & d' & s & Hbs & Hfl & Hs & ->).
  simpl. destruct s; simpl in *; [|done..]. intros _.
  assert (cls ∈ bs.*1) as (b & -> & Hb)%list_elem_of_fmap.
  { rewrite <- Hs. apply ALL_MODELS_complete. }
  destruct (committed_rows rt net file bs d' b) as (recs' & Hr & Hst); try done.
  { rewrite <- Hs. apply ALL_MODELS_NoDup. }
  exists b.2, recs'. split_and!; try done.
  - unfold fetched in Hbs. rewrite Forall_forall in Hbs. by apply Hbs.
  - clear Hr Hb. destruct b as [c recs]. simpl in *. intros Hall.
    induction Hst as [|i i' l l' [rows Hi'] _ IH]; [done|].
    apply Forall_cons in Hall as [Hnn Hall].
    rewrite assign_rowid_explicit in Hi' by done. injection Hi' as <-.
    f_equal. by apply IH.
Qed.

(** X18: when every source has a header and no line, the run succeeds on any
    file, commits twelve empty batches and leaves every table with the rows
    it had. *)
Theorem empty_sources_change_nothing file :
  (∀ cls, download_instances rt net cls = Ok []) →
  (bootstrap rt net file).1 = Ok ()
  ∧ db (bootstrap rt net file).2 = create_tables file
  ∧ trace (bootstrap rt net file).2
    = EvCreateAll :: concat ((λ cls, [EvDownload cls; EvCommit]) <$> ALL_MODELS).
Proof.
  intros Hall.
  assert (∀ ms w, pending w = [] →
            for_each ms (load_model rt net) w
            = (Ok (), mkWorld (db w) []
                        (trace w ++ concat ((λ cls, [EvDownload cls; EvCommit]) <$> ms))))
    as Hloop.
  { induction ms as [|c ms IH]; intros [d p t] Hp; simpl in Hp; subst.
    - simpl. by rewrite app_nil_r.
    - rewrite for_each_cons, load_model_unfold, Hall by done. cbn [db trace flush].
      rewrite IH by done. cbn [db trace]. unfold entity_events.
      by rewrite fmap_cons, <- app_assoc. }
  rewrite bootstrap_loop, Hloop by done. done.
Qed.

Lemma flush_twins (d : gmap string (list Instance)) recs n m i j :
  recs !! n = Some i → recs !! m = Some j → (n < m)%nat →
  model i = model j → pk_of i = pk_of j → forallb not_null (pk_of i) = true →
  ∃ e, flush rt d recs = Err e.
Proof.
  revert d n m. induction recs as [|r recs IH]; intros d n m Hn Hm Hlt Hmod Hpk Hnn;
    [done|].
  simpl. destruct (insert rt d r) as [d1|e1] eqn:E; simpl; [|eauto].
  destruct n as [|n].
  - injection Hn as ->. destruct m as [|m]; [lia|]. simpl in Hm.
    apply (flush_collision rt d1 recs j i).
    + by eapply list_elem_of_lookup_2.
    + destruct (insert_rows_of rt _ _ _ (model j) E) as (i' & [rows Hi'] & ->).
      rewrite assign_rowid_explicit in Hi' by done. injection Hi' as <-.
      rewrite decide_True by done.
      apply elem_of_app. right. by left.
    + done.
    + by rewrite <- Hpk.
  - destruct m as [|m]; [lia|]. simpl in Hn, Hm.
    apply (IH d1 n m); try done. lia.
Qed.

Lemma flush_batch (d d' : gmap string (list Instance))
    (bs : list (Entity * list Instance)) b :
  flush rt d (concat bs.*2) = Ok d' → b ∈ bs → ∃ d1 d2, flush rt d1 b.2 = Ok d2.
Proof.
  revert d. induction bs as [|b0 bs IH]; intros d Hf Hb; [by apply elem_of_nil in Hb|].
  rewrite fmap_cons in Hf. simpl in Hf. rewrite flush_app in Hf.
  destruct (flush rt d b0.2) as [d1|] eqn:E; [|done]. simpl in Hf.
  apply elem_of_cons in Hb as [->|Hb]; eauto.
Qed.

(** X19: a source that gives the same complete primary key to two of its
    rows fails the run, and none of its rows is stored. *)
Theorem repeated_key_fails_class file cls recs n m i j :
  download_instances rt net cls = Ok recs →
  recs !! n = Some i → recs !! m = Some j → (n < m)%nat →
  pk_of i = pk_of j → forallb not_null (pk_of i) = true →
  (∃ e, (bootstrap rt net file).1 = Err e)
  ∧ rows_of (db (bootstrap rt net file).2) cls = rows_of file cls.
Proof.
  intros Hd Hn Hm Hlt Hpk Hnn.
  assert (model i = model j) as Hmod.
  { rewrite (download_instances_model rt net _ _ i Hd),
      (download_instances_model rt net _ _ j Hd);
      [done | by eapply list_elem_of_lookup_2 ..]. }
  destruct (bootstrap_unfold rt net file) as (bs & d' & s & Hbs & Hfl & Hs & ->).
  assert (cls ∉ bs.*1) as Hcls.
  { intros (b & -> & Hb)%list_elem_of_fmap.
    destruct (flush_batch _ _ _ _ Hfl Hb) as (d1 & d2 & Hf).
    unfold fetched in Hbs. rewrite Forall_forall in Hbs.
    specialize (Hbs _ Hb). rewrite Hd in Hbs. injection Hbs as Hrecs.
    rewrite <- Hrecs in Hf.
    destruct (flush_twins d1 recs n m i j) as [e He]; try done. congruence. }
  simpl. split.
  - destruct s; simpl in *; eauto.
    exfalso. apply Hcls. rewrite <- Hs. apply ALL_MODELS_complete.
  - by eapply uncommitted_rows.
Qed.

End MoreRunFacts.

(** ** Evaluation of the further properties *)

Lemma nan_in_required_field_rejected_witness :
  ∃ errs, model_validate example_runtime Color (row_dict nameless_color_row)
          = Err (ValidationError Color errs) ∧ "name" ∈ errs.
Proof.
  apply (nan_in_required_field_rejected example_runtime Color
           (maxlen 200 (field "name" TStr)) nameless_color_row (PFloat S754_nan)).
  - right. by left.
  - done.
  - done.
  - done.
  - by vm_compute.
  - done.
Defined.

Lemma element_id_gap_becomes_text_witness :
  match model_validate example_runtime Element (row_dict gap_row) with
  | Ok i => getattr "element_id" (attrs i) = Some (AStr "None")
  | Err e => ∃ errs, e = ValidationError Element errs ∧ "element_id" ∉ errs
  end.
Proof.
  apply (element_id_gap_becomes_text example_runtime gap_row (PFloat S754_nan));
    [by vm_compute | done].
Defined.

Lemma other_columns_ignored_witness :
  model_validate example_runtime Part (row_dict part_row)
  = model_validate example_runtime Part (row_dict part_row_with_material).
Proof.
  apply (other_columns_ignored example_runtime Part part_row part_row_with_material).
  intros f Hf. simpl in Hf.
  apply elem_of_cons in Hf as [->|Hf]; [by vm_compute|].
  apply elem_of_cons in Hf as [->|Hf]; [by vm_compute|].
  apply elem_of_cons in Hf as [->|Hf]; [by vm_compute|].
  by apply elem_of_nil in Hf.
Defined.

Lemma instance_conforms_witness :
  model black = Color
  ∧ Forall2 (λ f kx, kx.1 = name f ∧ conforms f kx.2) (fields Color) (attrs black).
Proof.
  apply (instance_conforms example_runtime Color (row_dict black_row) black).
  by vm_compute.
Defined.

Lemma missing_column_rejected_witness :
  ∃ errs, model_validate example_runtime Part (row_dict part_row_without_name)
          = Err (ValidationError Part errs) ∧ "name" ∈ errs.
Proof.
  apply (missing_column_rejected example_runtime Part
           (maxlen 250 (field "name" TStr)) part_row_without_name).
  - right. by left.
  - done.
  - by vm_compute.
  - done.
Defined.

Lemma absent_default_is_None_witness :
  match model_validate example_runtime InventoryPart (row_dict inventory_part_row) with
  | Ok i => getattr "id" (attrs i) = Some ANone
  | Err e => ∃ errs, e = ValidationError InventoryPart errs ∧ "id" ∉ errs
  end.
Proof.
  apply (absent_default_is_None example_runtime InventoryPart
           (dflt (pk (field "id" TInt))) inventory_part_row).
  - by left.
  - done.
  - by vm_compute.
  - done.
Defined.

Lemma optional_gap_is_None_witness :
  match model_validate example_runtime Theme (row_dict root_theme_row) with
  | Ok i => getattr "parent_id" (attrs i) = Some ANone
  | Err e => ∃ errs, e = ValidationError Theme errs ∧ "parent_id" ∉ errs
  end.
Proof.
  apply (optional_gap_is_None example_runtime Theme
           (fk "theme.id" (opt (field "parent_id" TInt))) root_theme_row
           (PFloat S754_nan)).
  - right. right. by left.
  - done.
  - by vm_compute.
  - done.
Defined.

Lemma long_text_rejected_witness :
  ∃ errs, model_validate example_runtime Color (row_dict long_rgb_row)
          = Err (ValidationError Color errs) ∧ "rgb" ∈ errs.
Proof.
  apply (long_text_rejected example_runtime Color
           (maxlen 6 (field "rgb" TStr)) long_rgb_row "#05131D" 6).
  - right. right. by left.
  - done.
  - done.
  - by vm_compute.
  - simpl. lia.
  - done.
Defined.

Lemma non_text_rejected_witness :
  ∃ errs, model_validate example_runtime Part (row_dict numeric_part_row)
          = Err (ValidationError Part errs) ∧ "part_num" ∈ errs.
Proof.
  apply (non_text_rejected example_runtime Part
           (pk (maxlen 20 (field "part_num" TStr))) numeric_part_row (PInt 3001)).
  - by left.
  - done.
  - done.
  - by vm_compute.
  - done.
  - done.
  - done.
Defined.

Lemma element_ids_stay_distinct_witness :
  getattr "element_id" (attrs element_300121)
  ≠ getattr "element_id" (attrs element_300122).
Proof.
  apply (element_ids_stay_distinct example_runtime
           (row_dict element_row) (row_dict element_row_300122) 300121 300122).
  - by vm_compute.
  - by vm_compute.
  - by vm_compute.
  - by vm_compute.
  - done.
Defined.

Lemma foreign_keys_reference_primary_keys_witness :
  ∃ tgt g,
    entity_of_table (fk_table "part.part_num") = Some tgt
    ∧ g ∈ fields tgt ∧ name g = fk_column "part.part_num"
    ∧ pk_columns tgt = [name g]
    ∧ annot g = TStr ∧ max_length g = Some 20%nat.
Proof.
  apply (foreign_keys_reference_primary_keys Element
           (fk "part.part_num" (maxlen 20 (field "part_num" TStr))) "part.part_num").
  - right. by left.
  - done.
Defined.

Lemma download_raises_only_witness : download_error Part RuntimeError.
Proof.
  apply (download_raises_only example_runtime net_part_404 Part RuntimeError).
  vm_cast_no_check (eq_refl (Err (A:=list Instance) RuntimeError)).
Defined.

Lemma element_id_column_required_witness :
  download_instances example_runtime net_element_without_id Element
  = Err (KeyError "element_id").
Proof.
  apply (element_id_column_required example_runtime net_element_without_id
           (mkResponse 200 (CsvGz [element_row_without_id])) element_row_without_id []).
  - by vm_compute.
  - done.
  - done.
  - by vm_compute.
Defined.

Lemma bootstrap_raises_only_witness :
  ((∃ cls, download_instances example_runtime net_part_404 cls = Err RuntimeError)
   ∨ ((RuntimeError = IntegrityError ∨ RuntimeError = OverflowError
       ∨ RuntimeError = DatabaseFull)
      ∧ ∃ cls recs before,
          download_instances example_runtime net_part_404 cls = Ok recs
          ∧ trace (bootstrap example_runtime net_part_404 ∅).2
            = before ++ EvDownload cls :: (EvAdd <$> recs)
          ∧ (Forall (λ i, storable i = true) recs → RuntimeError = IntegrityError)))
  ∧ ((∃ cls, download_instances example_runtime net_wide_id cls = Err OverflowError)
     ∨ ((OverflowError = IntegrityError ∨ OverflowError = OverflowError
         ∨ OverflowError = DatabaseFull)
        ∧ ∃ cls recs before,
            download_instances example_runtime net_wide_id cls = Ok recs
            ∧ trace (bootstrap example_runtime net_wide_id ∅).2
              = before ++ EvDownload cls :: (EvAdd <$> recs)
            ∧ (Forall (λ i, storable i = true) recs
               → OverflowError = IntegrityError))).
Proof.
  split.
  - apply (bootstrap_raises_only example_runtime net_part_404 ∅ RuntimeError).
    vm_cast_no_check (eq_refl (Err (A:=()) RuntimeError)).
  - apply (bootstrap_raises_only example_runtime net_wide_id ∅ OverflowError).
    vm_cast_no_check (eq_refl (Err (A:=()) OverflowError)).
Defined.

Lemma successful_run_stores_batches_witness :
  ∃ recs recs',
    download_instances example_runtime net_ok Color = Ok recs
    ∧ rows_of (db (bootstrap example_runtime net_ok ∅).2) Color = rows_of ∅ Color ++ recs'
    ∧ Forall2 (stored_as example_runtime) recs recs'
    ∧ (Forall (λ i, forallb not_null (pk_of i) = true) recs → recs' = recs).
Proof.
  apply (successful_run_stores_batches example_runtime net_ok ∅ Color).
  vm_cast_no_check (eq_refl (Ok ())).
Defined.

Lemma empty_sources_change_nothing_witness :
  (bootstrap example_runtime net_empty ∅).1 = Ok ()
  ∧ db (bootstrap example_runtime net_empty ∅).2 = create_tables ∅
  ∧ trace (bootstrap example_runtime net_empty ∅).2
    = EvCreateAll :: concat ((λ cls, [EvDownload cls; EvCommit]) <$> ALL_MODELS).
Proof.
  apply (empty_sources_change_nothing example_runtime net_empty ∅).
  intros cls. destruct cls; vm_cast_no_check (eq_refl (Ok (A:=list Instance) [])).
Defined.

Lemma repeated_key_fails_class_witness :
  (∃ e, (bootstrap example_runtime net_twin_colors ∅).1 = Err e)
  ∧ rows_of (db (bootstrap example_runtime net_twin_colors ∅).2) Color = rows_of ∅ Color.
Proof.
  apply (repeated_key_fails_class example_runtime net_twin_colors ∅ Color
           [black; black] 0 1 black black).
  - vm_cast_no_check (eq_refl (Ok (A:=list Instance) [black; black])).
  - done.
  - done.
  - lia.
  - done.
  - vm_cast_no_check (eq_refl true).
Defined.

(** X20: the range error comes before the key check. On a file that holds
    category 1, a category source whose first line carries the id 2^63 and
    whose second line is category 1 again stops the run with
    [OverflowError], not [IntegrityError], and stores nothing. *)
Theorem overflow_precedes_repeated_key rt :
  rows_of after_part_categories PartCategory = [baseplates]
  ∧ download_instances rt net_wide_id PartCategory = Ok [wide_category; baseplates]
  ∧ (bootstrap rt net_wide_id after_part_categories).1 = Err OverflowError
  ∧ rows_of (db (bootstrap rt net_wide_id after_part_categories).2) PartCategory
    = [baseplates].
Proof. split_and!; by vm_compute. Qed.
